(** * jmespath/ast.py: the expression tree and its tree-walking interpreter

    A shallow embedding of [jmespath/ast.py]: the AST node classes with their
    structural [__eq__]/[__ne__], the Python values the interpreter walks
    over (including [_Projection], the [list] subclass produced by the
    wildcard and flatten nodes), and [TreeInterpreter.visit] with the
    exceptions it lets escape. *)

From Stdlib Require Import List ZArith String Ascii Bool Lia DecimalString.
Import ListNotations.
Local Open Scope string_scope.
Local Open Scope Z_scope.
Local Open Scope list_scope.

(** ** Python values *)

Unset Elimination Schemes.

(** The values reaching the interpreter: JSON data as Python objects, plus
    instances of [_Projection].  A [dict] is kept as an association list in
    insertion order, with unique keys. *)
Inductive Value : Type :=
| PyNone
| PyBool (b : bool)
| PyInt (z : Z)
| PyStr (s : string)
| PyList (elements : list Value)
| PyDict (items : list (string * Value))
| Projection (elements : list Value).

Set Elimination Schemes.

(** Exceptions that can escape from the interpreter. *)
Inductive Exn : Type := TypeError | AttributeError | IndexError.

Inductive Result (A : Type) : Type :=
| Ok (a : A)
| Raise (e : Exn).
Arguments Ok {A} a.
Arguments Raise {A} e.

Definition bind {A B : Type} (r : Result A) (k : A -> Result B) : Result B :=
  match r with
  | Ok a => k a
  | Raise e => Raise e
  end.

Notation "x <- r ;; k" := (bind r (fun x => k))
  (at level 61, r at next level, right associativity).

(** ** The expression tree *)

Unset Elimination Schemes.

(** One constructor per subclass of [AST].  Every class carries the [nodes]
    list set by [AST.__init__]; [Field] and [Index] always pass no children
    (so their [nodes] is the empty list and is left out), [KeyValPair] always
    passes exactly one. *)
Inductive Node : Type :=
| SubExpression (nodes : list Node)
| Field (name : string)
| MultiFieldDict (nodes : list Node)
| MultiFieldList (nodes : list Node)
| KeyValPair (key_name : string) (node : Node)
| Index (index : Z)
| WildcardIndex (nodes : list Node)
| WildcardValues (nodes : list Node)
| ListElements (nodes : list Node)
| ORExpression (nodes : list Node).

Set Elimination Schemes.

(** ** Python built-ins used by the interpreter *)

(** [isinstance(value, list)]: true of lists and of [_Projection], which
    subclasses [list]; false of strings. *)
Definition isinstance_list (value : Value) : bool :=
  match value with
  | PyList _ | Projection _ => true
  | _ => false
  end.

(** [hasattr(value, 'get')]: dicts and [_Projection] define [get]. *)
Definition has_get (value : Value) : bool :=
  match value with
  | PyDict _ | Projection _ => true
  | _ => false
  end.

(** [hasattr(value, 'values')]: dicts and [_Projection] define [values]. *)
Definition has_values (value : Value) : bool :=
  match value with
  | PyDict _ | Projection _ => true
  | _ => false
  end.

(** [isinstance(value, _Projection)]; these are also the only values with
    the methods [multi_get] and [multi_get_list]. *)
Definition is_Projection (value : Value) : bool :=
  match value with
  | Projection _ => true
  | _ => false
  end.

(** [value is None]. *)
Definition is_None (value : Value) : bool :=
  match value with
  | PyNone => true
  | _ => false
  end.

(** [dict.get(key)]: the value stored under [key], [None] when absent. *)
Fixpoint dict_get (items : list (string * Value)) (key : string) : Value :=
  match items with
  | [] => PyNone
  | (k, v) :: rest => if String.eqb k key then v else dict_get rest key
  end.

(** [key in dict]. *)
Fixpoint dict_mem (items : list (string * Value)) (key : string) : bool :=
  match items with
  | [] => false
  | (k, _) :: rest => if String.eqb k key then true else dict_mem rest key
  end.

(** [dict[key] = v]: overwrite in place, or append a new item. *)
Fixpoint dict_set (items : list (string * Value)) (key : string) (v : Value)
  : list (string * Value) :=
  match items with
  | [] => [(key, v)]
  | (k, old) :: rest =>
      if String.eqb k key then (k, v) :: rest
      else (k, old) :: dict_set rest key v
  end.

(** [list.__getitem__(index)] with an integer: [None] stands for
    [IndexError].  Valid offsets are [-len <= index < len]. *)
Definition list_getitem (elements : list Value) (index : Z) : option Value :=
  let len := Z.of_nat (List.length elements) in
  if index <? 0 then
    if 0 <=? len + index then nth_error elements (Z.to_nat (len + index))
    else None
  else nth_error elements (Z.to_nat index).

(** A Python string is held UTF-8 encoded.  A continuation byte of the
    encoding has the form [10xxxxxx]. *)
Definition is_continuation (c : ascii) : bool :=
  match c with
  | Ascii _ _ _ _ _ _ b6 b7 => b7 && negb b6
  end.

(** The characters of the rest of a string, each as a one-character
    string, preceded by the continuation bytes that still belong to the
    character before them. *)
Fixpoint str_chars (s : string) : string * list Value :=
  match s with
  | EmptyString => (EmptyString, [])
  | String c rest =>
      let (tail, chars) := str_chars rest in
      if is_continuation c then (String c tail, chars)
      else (EmptyString, PyStr (String c tail) :: chars)
  end.

(** Iterating a string: its characters, each as a one-character string;
    a character is a byte that is not a continuation byte together with
    the continuation bytes that follow it. *)
Definition str_iter (s : string) : list Value :=
  let (tail, chars) := str_chars s in
  match tail with
  | EmptyString => chars
  | _ => PyStr tail :: chars
  end.

(** Iterating a value, as [list.extend] does: [TypeError] when the value is
    not iterable; a string yields its characters, a dict its keys. *)
Definition py_iter (value : Value) : Result (list Value) :=
  match value with
  | PyNone | PyBool _ | PyInt _ => Raise TypeError
  | PyStr s => Ok (str_iter s)
  | PyList elements | Projection elements => Ok elements
  | PyDict items => Ok (map (fun kv => PyStr (fst kv)) items)
  end.

(** ** [_Projection] *)

(** [_Projection.__init__(elements)]: [self.extend(elements)]. *)
Definition Projection_init (elements : Value) : Result Value :=
  els <- py_iter elements ;; Ok (Projection els).

(** [value.get(name)], for whichever class [value] has: [dict.get] or
    [_Projection.get]; [None] stands for the [AttributeError] raised when
    the object has no [get].

    [_Projection.get] loops over its elements, skips those whose [get]
    raises [AttributeError] or returns [None], re-wraps a result that is a
    list as a [_Projection], and appends. *)
Fixpoint value_get (name : string) (value : Value) : option Value :=
  match value with
  | PyDict items => Some (dict_get items name)
  | Projection elements =>
      Some (Projection
        (fold_left
           (fun results element =>
              match value_get name element with
              | None => results
              | Some PyNone => results
              | Some (PyList l) | Some (Projection l) =>
                  results ++ [Projection l]
              | Some result => results ++ [result]
              end)
           elements []))
  | _ => None
  end.

(** [_Projection.get_index(index)]: elements that are not lists are
    skipped, as are those for which plain list indexing raises. *)
Definition get_index (self : list Value) (index : Z) : Value :=
  Projection
    (fold_left
       (fun matches el =>
          match el with
          | PyList l | Projection l =>
              match list_getitem l index with
              | Some x => matches ++ [x]
              | None => matches
              end
          | _ => matches
          end)
       self []).

(** [value.values()]: [dict.values] or [_Projection.values], returned as the
    sequence of items it holds; [None] stands for [AttributeError].

    [_Projection.values] wraps the values of each element that has them in
    a new [_Projection] and skips the others. *)
Fixpoint value_values (value : Value) : option (list Value) :=
  match value with
  | PyDict items => Some (map snd items)
  | Projection elements =>
      Some (fold_left
              (fun results element =>
                 match value_values element with
                 | Some vs => results ++ [Projection vs]
                 | None => results
                 end)
              elements [])
  | _ => None
  end.

(** ** Loops that append to a result list *)

Section ForAppend.
Context {A B : Type}.
Variable body : A -> Result B.

(** [for x in xs: results.append(body(x))], stopping at the first
    exception. *)
Fixpoint for_append (xs : list A) (results : list B) : Result (list B) :=
  match xs with
  | [] => Ok results
  | x :: rest => r <- body x ;; for_append rest (results ++ [r])
  end.
End ForAppend.

(** [node.key_name]: only [KeyValPair] instances have the attribute. *)
Definition key_name_of (node : Node) : Result string :=
  match node with
  | KeyValPair key_name _ => Ok key_name
  | _ => Raise AttributeError
  end.

(** ** [TreeInterpreter] *)

Section Handlers.
(** [self.visit] (and [node.search], which visits with a fresh
    interpreter): the dispatcher the handlers call back into. *)
Variable visit : Node -> Value -> Result Value.

(** The loop of [visit_SubExpression]. *)
Fixpoint visit_SubExpression (nodes : list Node) (value : Value)
  : Result Value :=
  match nodes with
  | [] => Ok value
  | node :: rest =>
      result <- visit node value ;; visit_SubExpression rest result
  end.

(** [try: return value.get(node.name) except AttributeError: return None] *)
Definition visit_Field (name : string) (value : Value) : Result Value :=
  match value_get name value with
  | Some result => Ok result
  | None => Ok PyNone
  end.

(** The loop filling a dict, in [visit_MultiFieldDict] and in
    [_Projection.multi_get]: the child is evaluated first, then its
    [key_name] is read. *)
Fixpoint collect_dict (nodes : list Node) (value : Value)
    (collected : list (string * Value)) : Result (list (string * Value)) :=
  match nodes with
  | [] => Ok collected
  | node :: rest =>
      current <- visit node value ;;
      key <- key_name_of node ;;
      collect_dict rest value (dict_set collected key current)
  end.

(** The loop filling a list, in [visit_MultiFieldList] and in
    [_Projection.multi_get_list]. *)
Definition collect_list (nodes : list Node) (value : Value)
  : Result (list Value) :=
  for_append (fun node => visit node value) nodes [].

Section Broadcast.
Variable nodes : list Node.

(** [value.multi_get(nodes)]: only [_Projection] has the method.  One
    result is appended per element: the recursive call for an element
    that is a [_Projection], a fresh dict otherwise. *)
Fixpoint multi_get (self : Value) : Result Value :=
  match self with
  | Projection elements =>
      results <-
        for_append
          (fun element =>
             match element with
             | Projection _ => multi_get element
             | _ => d <- collect_dict nodes element [] ;; Ok (PyDict d)
             end)
          elements [] ;;
      Ok (Projection results)
  | _ => Raise AttributeError
  end.

(** [value.multi_get_list(nodes)], likewise with a fresh list. *)
Fixpoint multi_get_list (self : Value) : Result Value :=
  match self with
  | Projection elements =>
      results <-
        for_append
          (fun element =>
             match element with
             | Projection _ => multi_get_list element
             | _ => l <- collect_list nodes element ;; Ok (PyList l)
             end)
          elements [] ;;
      Ok (Projection results)
  | _ => Raise AttributeError
  end.
End Broadcast.

Definition visit_MultiFieldDict (nodes : list Node) (value : Value)
  : Result Value :=
  match value with
  | PyNone => Ok PyNone
  | Projection _ => multi_get nodes value
  | _ => d <- collect_dict nodes value [] ;; Ok (PyDict d)
  end.

Definition visit_MultiFieldList (nodes : list Node) (value : Value)
  : Result Value :=
  match value with
  | PyNone => Ok PyNone
  | Projection _ => multi_get_list nodes value
  | _ => l <- collect_list nodes value ;; Ok (PyList l)
  end.

(** [self.visit(node.nodes[0], value)] *)
Definition visit_KeyValPair (node : Node) (value : Value) : Result Value :=
  visit node value.

(** Only lists are indexed.  [_lookup_method] finds [get_index] on a
    [_Projection] and [__getitem__] on a plain list, whose [IndexError]
    becomes [None]. *)
Definition visit_Index (index : Z) (value : Value) : Result Value :=
  match value with
  | Projection elements => Ok (get_index elements index)
  | PyList elements =>
      match list_getitem elements index with
      | Some x => Ok x
      | None => Ok PyNone
      end
  | _ => Ok PyNone
  end.

(** [return _Projection(value)] *)
Definition visit_WildcardIndex (value : Value) : Result Value :=
  Projection_init value.

(** [try: return _Projection(value.values())
     except AttributeError: return None] *)
Definition visit_WildcardValues (value : Value) : Result Value :=
  match value_values value with
  | Some vs => Ok (Projection vs)
  | None => Ok PyNone
  end.

(** The loop of [visit_ListElements]: [extend] for an element that is a
    list, [append] otherwise. *)
Definition merge_elements (value : list Value) : list Value :=
  fold_left
    (fun merged_list element =>
       match element with
       | PyList l | Projection l => merged_list ++ l
       | _ => merged_list ++ [element]
       end)
    value [].

Definition visit_ListElements (value : Value) : Result Value :=
  match value with
  | PyList elements | Projection elements =>
      Ok (Projection (merge_elements elements))
  | _ => Projection_init value
  end.

(** [node.nodes[0]] and, only when its result is [None],
    [node.nodes[1]]; a missing child is an [IndexError]. *)
Definition visit_ORExpression (nodes : list Node) (value : Value)
  : Result Value :=
  match nodes with
  | [] => Raise IndexError
  | lhs :: rest =>
      result <- visit lhs value ;;
      if is_None result then
        match rest with
        | [] => Raise IndexError
        | rhs :: _ => visit rhs value
        end
      else Ok result
  end.
End Handlers.

(** [Visitor.visit] on a [TreeInterpreter]: dispatch on the node's class. *)
Fixpoint visit (node : Node) (value : Value) {struct node} : Result Value :=
  match node with
  | SubExpression nodes => visit_SubExpression visit nodes value
  | Field name => visit_Field name value
  | MultiFieldDict nodes => visit_MultiFieldDict visit nodes value
  | MultiFieldList nodes => visit_MultiFieldList visit nodes value
  | KeyValPair _ child => visit_KeyValPair visit child value
  | Index index => visit_Index index value
  | WildcardIndex _ => visit_WildcardIndex value
  | WildcardValues _ => visit_WildcardValues value
  | ListElements _ => visit_ListElements value
  | ORExpression nodes => visit_ORExpression visit nodes value
  end.

(** [AST.search] *)
Definition search (node : Node) (value : Value) : Result Value :=
  visit node value.

(** ** [AST.__eq__] and [AST.__ne__] *)

Section ListEq.
Context {A : Type}.
Variable eq : A -> A -> bool.

(** [==] on two lists: same length and pairwise [==]. *)
Fixpoint list_eq (xs ys : list A) : bool :=
  match xs, ys with
  | [], [] => true
  | x :: xs', y :: ys' => eq x y && list_eq xs' ys'
  | _, _ => false
  end.
End ListEq.

(** [isinstance(other, self.__class__) and self.__dict__ == other.__dict__]:
    no node class derives from another, so the [isinstance] test holds
    exactly when both nodes have the same class; the instance dicts then
    have the same keys ([nodes], plus [name], [index] or [key_name]) and
    are compared value by value. *)
Fixpoint node_eq (self other : Node) {struct self} : bool :=
  match self, other with
  | SubExpression xs, SubExpression ys => list_eq node_eq xs ys
  | Field n, Field m => String.eqb n m
  | MultiFieldDict xs, MultiFieldDict ys => list_eq node_eq xs ys
  | MultiFieldList xs, MultiFieldList ys => list_eq node_eq xs ys
  | KeyValPair k x, KeyValPair k' y => node_eq x y && String.eqb k k'
  | Index i, Index j => Z.eqb i j
  | WildcardIndex xs, WildcardIndex ys => list_eq node_eq xs ys
  | WildcardValues xs, WildcardValues ys => list_eq node_eq xs ys
  | ListElements xs, ListElements ys => list_eq node_eq xs ys
  | ORExpression xs, ORExpression ys => list_eq node_eq xs ys
  | _, _ => false
  end.

(** [not self.__eq__(other)] *)
Definition node_ne (self other : Node) : bool := negb (node_eq self other).

(** ** Induction principles for the nested types *)

Section NodeInd.
Variable P : Node -> Prop.
Hypothesis HSub : forall nodes, Forall P nodes -> P (SubExpression nodes).
Hypothesis HField : forall name, P (Field name).
Hypothesis HDict : forall nodes, Forall P nodes -> P (MultiFieldDict nodes).
Hypothesis HList : forall nodes, Forall P nodes -> P (MultiFieldList nodes).
Hypothesis HKey : forall key_name node, P node -> P (KeyValPair key_name node).
Hypothesis HIndex : forall index, P (Index index).
Hypothesis HWI : forall nodes, Forall P nodes -> P (WildcardIndex nodes).
Hypothesis HWV : forall nodes, Forall P nodes -> P (WildcardValues nodes).
Hypothesis HLE : forall nodes, Forall P nodes -> P (ListElements nodes).
Hypothesis HOr : forall nodes, Forall P nodes -> P (ORExpression nodes).

Fixpoint Node_ind (node : Node) : P node :=
  let all := fix all (nodes : list Node) : Forall P nodes :=
    match nodes with
    | [] => Forall_nil P
    | n :: rest => Forall_cons n (Node_ind n) (all rest)
    end in
  match node with
  | SubExpression nodes => HSub nodes (all nodes)
  | Field name => HField name
  | MultiFieldDict nodes => HDict nodes (all nodes)
  | MultiFieldList nodes => HList nodes (all nodes)
  | KeyValPair key_name child => HKey key_name child (Node_ind child)
  | Index index => HIndex index
  | WildcardIndex nodes => HWI nodes (all nodes)
  | WildcardValues nodes => HWV nodes (all nodes)
  | ListElements nodes => HLE nodes (all nodes)
  | ORExpression nodes => HOr nodes (all nodes)
  end.
End NodeInd.

Section ValueInd.
Variable P : Value -> Prop.
Hypothesis HNone : P PyNone.
Hypothesis HBool : forall b, P (PyBool b).
Hypothesis HInt : forall z, P (PyInt z).
Hypothesis HStr : forall s, P (PyStr s).
Hypothesis HList : forall elements, Forall P elements -> P (PyList elements).
Hypothesis HDict :
  forall items, Forall (fun kv => P (snd kv)) items -> P (PyDict items).
Hypothesis HProj :
  forall elements, Forall P elements -> P (Projection elements).

Fixpoint Value_ind (value : Value) : P value :=
  let all := fix all (vs : list Value) : Forall P vs :=
    match vs with
    | [] => Forall_nil P
    | v :: rest => Forall_cons v (Value_ind v) (all rest)
    end in
  match value with
  | PyNone => HNone
  | PyBool b => HBool b
  | PyInt z => HInt z
  | PyStr s => HStr s
  | PyList elements => HList elements (all elements)
  | PyDict items =>
      HDict items
        ((fix all_items (kvs : list (string * Value))
            : Forall (fun kv => P (snd kv)) kvs :=
            match kvs with
            | [] => Forall_nil _
            | kv :: rest =>
                Forall_cons (P := fun kv => P (snd kv)) kv
                  (Value_ind (snd kv)) (all_items rest)
            end) items)
  | Projection elements => HProj elements (all elements)
  end.
End ValueInd.

(** ** Trees on which every handler is guarded *)

(** Trees built without [WildcardIndex] and [ListElements], in which every
    child of a [MultiFieldDict] is a [KeyValPair] and every [ORExpression]
    has its two children. *)
Fixpoint guarded (node : Node) : bool :=
  match node with
  | SubExpression nodes => forallb guarded nodes
  | Field _ | Index _ | WildcardValues _ => true
  | MultiFieldDict nodes =>
      forallb
        (fun n =>
           match n with
           | KeyValPair _ child => guarded child
           | _ => false
           end)
        nodes
  | MultiFieldList nodes => forallb guarded nodes
  | KeyValPair _ child => guarded child
  | WildcardIndex _ | ListElements _ => false
  | ORExpression nodes =>
      match nodes with
      | [lhs; rhs] => guarded lhs && guarded rhs
      | _ => false
      end
  end.

(** Trees that respect the grammar of the parser: every child of a
    [MultiFieldDict] is a [KeyValPair] and every [ORExpression] has exactly
    two children. *)
Fixpoint well_formed (node : Node) : bool :=
  match node with
  | SubExpression nodes | MultiFieldList nodes => forallb well_formed nodes
  | MultiFieldDict nodes =>
      forallb
        (fun n =>
           match n with
           | KeyValPair _ child => well_formed child
           | _ => false
           end)
        nodes
  | KeyValPair _ child => well_formed child
  | ORExpression nodes =>
      match nodes with
      | [lhs; rhs] => well_formed lhs && well_formed rhs
      | _ => false
      end
  | Field _ | Index _ | WildcardIndex _ | WildcardValues _
  | ListElements _ => true
  end.

(** [hasattr(node, 'key_name')] *)
Definition has_key_name (node : Node) : bool :=
  match node with
  | KeyValPair _ _ => true
  | _ => false
  end.

(** ** [PrintVisitor] *)

(** [node.__class__.__name__] *)
Definition class_name (node : Node) : string :=
  match node with
  | SubExpression _ => "SubExpression"
  | Field _ => "Field"
  | MultiFieldDict _ => "MultiFieldDict"
  | MultiFieldList _ => "MultiFieldList"
  | KeyValPair _ _ => "KeyValPair"
  | Index _ => "Index"
  | WildcardIndex _ => "WildcardIndex"
  | WildcardValues _ => "WildcardValues"
  | ListElements _ => "ListElements"
  | ORExpression _ => "ORExpression"
  end.

(** The line feed of ['\n']. *)
Definition newline : string := String (ascii_of_nat 10) EmptyString.

(** ['%s' % n] for an integer [n]: its decimal digits, with a minus sign
    when negative. *)
Definition str_of_int (z : Z) : string := NilZero.string_of_int (Z.to_int z).

(** [''.join(parts)] *)
Definition join (parts : list string) : string :=
  fold_right String.append EmptyString parts.

(** ["%s%s(%s)" % (indent, node.__class__.__name__, inner_content)] *)
Definition _print_leaf_node (node : Node) (indent inner_content : string)
  : string :=
  (indent ++ class_name node ++ "(" ++ inner_content ++ ")")%string.

Section Printer.
(** [self.visit] of the printer: the child and the indentation to use. *)
Variable print : Node -> string -> Result string.

(** The parts appended after the header by [_print_node_with_children]:
    one ["%s,\n"] for each child of [node.nodes[:-1]], then ["%s)"] for
    [node.nodes[-1]], which is an [IndexError] on an empty list. *)
Fixpoint children_parts (nodes : list Node) (sub_indent : string)
  : Result (list string) :=
  match nodes with
  | [] => Raise IndexError
  | [last] =>
      s <- print last sub_indent ;; Ok [(s ++ ")")%string]
  | child :: rest =>
      s <- print child sub_indent ;;
      parts <- children_parts rest sub_indent ;;
      Ok ((s ++ "," ++ newline)%string :: parts)
  end.

Definition _print_node_with_children (node : Node) (nodes : list Node)
    (indent : string) : Result string :=
  let sub_indent := (indent ++ "    ")%string in
  parts <- children_parts nodes sub_indent ;;
  Ok (join ((indent ++ class_name node ++ "(" ++ newline)%string :: parts)).
End Printer.

(** [Visitor.visit] on a [PrintVisitor].  [visit_KeyValPair] formats the
    child with ['%s'], that is through [AST.__repr__], which prints it with
    the default, empty indentation. *)
Fixpoint render (node : Node) (indent : string) {struct node}
  : Result string :=
  match node with
  | SubExpression nodes | MultiFieldDict nodes | MultiFieldList nodes
  | ORExpression nodes => _print_node_with_children render node nodes indent
  | Field name => Ok (_print_leaf_node node indent name)
  | KeyValPair key_name child =>
      s <- render child EmptyString ;;
      Ok (_print_leaf_node node indent
            ("key_name=" ++ key_name ++ ", node=" ++ s)%string)
  | Index index => Ok (_print_leaf_node node indent (str_of_int index))
  | WildcardIndex _ => Ok (_print_leaf_node node indent "*")
  | WildcardValues _ | ListElements _ =>
      Ok (_print_leaf_node node indent EmptyString)
  end.





(** * Properties *)

(** Split a goal into its conjuncts, and nothing else. *)
Ltac split_and := repeat match goal with |- _ /\ _ => split end.

(** ** Accumulating loops *)

(** A loop that only ever extends its accumulator computes a [flat_map]. *)
Lemma fold_left_appending {A B : Type}
    (f : list B -> A -> list B) (g : A -> list B) :
  (forall acc x, f acc x = acc ++ g x) ->
  forall xs acc, fold_left f xs acc = acc ++ flat_map g xs.
Proof.
  intros Hf xs.
  induction xs as [|x xs IH]; intros acc; simpl.
  - now rewrite app_nil_r.
  - now rewrite IH, Hf, <- app_assoc.
Qed.

Lemma for_append_Ok {A B : Type} (body : A -> Result B) xs :
  forall acc rs,
    for_append body xs acc = Ok rs ->
    exists ys, rs = acc ++ ys /\ Forall2 (fun x y => body x = Ok y) xs ys.
Proof.
  induction xs as [|x xs IH]; intros acc rs; simpl.
  - intros [= <-]. exists []. split; [now rewrite app_nil_r | constructor].
  - destruct (body x) as [y|e] eqn:Hx; simpl; [|discriminate].
    intros H. apply IH in H as (ys & -> & Hys).
    exists (y :: ys). split; [now rewrite <- app_assoc | now constructor].
Qed.

Lemma for_append_Forall2 {A B : Type} (body : A -> Result B) xs ys :
  Forall2 (fun x y => body x = Ok y) xs ys ->
  forall acc, for_append body xs acc = Ok (acc ++ ys).
Proof.
  induction 1 as [|x y xs ys Hx _ IH]; intros acc; simpl.
  - now rewrite app_nil_r.
  - rewrite Hx; simpl. now rewrite IH, <- app_assoc.
Qed.

Lemma for_append_total {A B : Type} (body : A -> Result B) xs :
  Forall (fun x => exists y, body x = Ok y) xs ->
  forall acc, exists ys,
    for_append body xs acc = Ok (acc ++ ys) /\ List.length ys = List.length xs.
Proof.
  induction 1 as [|x xs [y Hx] _ IH]; intros acc; simpl.
  - exists []. now rewrite app_nil_r.
  - rewrite Hx; simpl. destruct (IH (acc ++ [y])) as (ys & -> & Hlen).
    exists (y :: ys). rewrite <- app_assoc. simpl. auto.
Qed.

(** The flatten loop, element by element. *)
Lemma merge_elements_flat_map elements :
  merge_elements elements =
    flat_map
      (fun element =>
         match element with
         | PyList l | Projection l => l
         | _ => [element]
         end)
      elements.
Proof.
  unfold merge_elements.
  rewrite fold_left_appending with (g := fun element =>
    match element with
    | PyList l | Projection l => l
    | _ => [element]
    end); [reflexivity|].
  intros acc [] ; reflexivity.
Qed.

(** ** The pipeline *)

(** C9. A [SubExpression] without children is the identity: the current
    value comes back unchanged. *)
Theorem SubExpression_empty_identity :
  forall value, visit (SubExpression []) value = Ok value.
Proof. reflexivity. Qed.

(** ** OR-fallback *)

(** C2. [ORExpression(L, R)] evaluates [L] first; when that result is
    [None] the answer is whatever [R] gives on the same value; any other
    result of [L] is returned unchanged whatever [R] is (so [R] plays no
    part), in particular for the falsy results [0], the empty string and
    [False]. *)
Theorem ORExpression_fallback_only_on_None :
  forall L R value,
    (visit L value = Ok PyNone ->
       visit (ORExpression [L; R]) value = visit R value)
    /\ (forall result,
          visit L value = Ok result -> result <> PyNone ->
          visit (ORExpression [L; R]) value = Ok result)
    /\ (forall result,
          In result [PyInt 0; PyStr ""; PyBool false] ->
          visit L value = Ok result ->
          visit (ORExpression [L; R]) value = Ok result)
    /\ (forall result,
          visit (ORExpression [L; R]) value = Ok result ->
          visit L value = Ok PyNone /\ visit R value = Ok result
          \/ visit L value = Ok result /\ result <> PyNone).
Proof.
  intros L R value.
  assert (Hkeep : forall result,
             visit L value = Ok result -> result <> PyNone ->
             visit (ORExpression [L; R]) value = Ok result).
  { intros result HL Hnn. simpl. unfold visit_ORExpression.
    rewrite HL. simpl. destruct result; simpl; congruence. }
  repeat split.
  - intros HL. simpl. unfold visit_ORExpression. now rewrite HL.
  - exact Hkeep.
  - intros result Hin HL. apply Hkeep; [exact HL|].
    simpl in Hin. intuition (subst; discriminate).
  - intros result. simpl. unfold visit_ORExpression.
    destruct (visit L value) as [r|e]; simpl; [|discriminate].
    destruct r; simpl; intros H; try (right; split; congruence).
    left. auto.
Qed.

Lemma ORExpression_fallback_only_on_None_witness :
  visit (ORExpression [Field "a"; Field "b"])
    (PyDict [("a", PyNone); ("b", PyInt 2)]) = Ok (PyInt 2)
  /\ visit (ORExpression [Field "a"; Field "b"])
       (PyDict [("a", PyInt 1); ("b", PyInt 2)]) = Ok (PyInt 1)
  /\ visit (ORExpression [Field "a"; WildcardIndex []])
       (PyDict [("a", PyInt 0); ("b", PyInt 2)]) = Ok (PyInt 0).
Proof.
  split; [|split].
  - destruct (ORExpression_fallback_only_on_None (Field "a") (Field "b")
                (PyDict [("a", PyNone); ("b", PyInt 2)])) as (H & _).
    apply H. reflexivity.
  - destruct (ORExpression_fallback_only_on_None (Field "a") (Field "b")
                (PyDict [("a", PyInt 1); ("b", PyInt 2)])) as (_ & H & _).
    apply H; [reflexivity | discriminate].
  - destruct (ORExpression_fallback_only_on_None (Field "a")
                (WildcardIndex [])
                (PyDict [("a", PyInt 0); ("b", PyInt 2)])) as (_ & _ & H & _).
    apply H; [simpl; auto | reflexivity].
Defined.

(** ** Lookups that cannot be satisfied *)

Lemma value_get_no_attribute name value :
  has_get value = false -> value_get name value = None.
Proof. destruct value; simpl; congruence. Qed.

Lemma value_values_no_attribute value :
  has_values value = false -> value_values value = None.
Proof. destruct value; simpl; congruence. Qed.

Lemma dict_get_absent items key :
  dict_mem items key = false -> dict_get items key = PyNone.
Proof.
  induction items as [|[k v] rest IH]; simpl; [reflexivity|].
  destruct (String.eqb k key); [discriminate | exact IH].
Qed.

Lemma list_getitem_out_of_range elements index :
  index < - Z.of_nat (List.length elements)
  \/ Z.of_nat (List.length elements) <= index ->
  list_getitem elements index = None.
Proof.
  intros Hout. unfold list_getitem.
  destruct (Z.ltb_spec index 0) as [Hneg|Hpos].
  - destruct (Z.leb_spec 0 (Z.of_nat (List.length elements) + index));
      [lia | reflexivity].
  - apply nth_error_None. lia.
Qed.

Lemma list_getitem_from_start elements index :
  0 <= index < Z.of_nat (List.length elements) ->
  exists x,
    nth_error elements (Z.to_nat index) = Some x
    /\ list_getitem elements index = Some x.
Proof.
  intros Hin. unfold list_getitem.
  destruct (Z.ltb_spec index 0) as [Hneg|_]; [lia|].
  destruct (nth_error elements (Z.to_nat index)) as [x|] eqn:Hx.
  - exists x. auto.
  - apply nth_error_None in Hx. lia.
Qed.

Lemma list_getitem_from_end elements index :
  - Z.of_nat (List.length elements) <= index < 0 ->
  exists x,
    nth_error elements (Z.to_nat (Z.of_nat (List.length elements) + index))
      = Some x
    /\ list_getitem elements index = Some x.
Proof.
  intros Hin. unfold list_getitem.
  destruct (Z.ltb_spec index 0) as [_|Hpos]; [|lia].
  destruct (Z.leb_spec 0 (Z.of_nat (List.length elements) + index));
    [|lia].
  destruct (nth_error elements
              (Z.to_nat (Z.of_nat (List.length elements) + index)))
    as [x|] eqn:Hx.
  - exists x. auto.
  - apply nth_error_None in Hx. lia.
Qed.

(** C1. A [Field], [Index] or [WildcardValues] lookup that cannot be
    satisfied evaluates to [None] and raises nothing: [Field] on a value
    without [get] or on a dict without the key; [Index] on a value that is
    not a list or on a list with the index out of range; [WildcardValues]
    on a value without [values]. *)
Theorem unsatisfied_lookup_is_None :
  (forall name value,
     has_get value = false -> visit (Field name) value = Ok PyNone)
  /\ (forall name items,
        dict_mem items name = false ->
        visit (Field name) (PyDict items) = Ok PyNone)
  /\ (forall index value,
        isinstance_list value = false ->
        visit (Index index) value = Ok PyNone)
  /\ (forall index elements,
        index < - Z.of_nat (List.length elements)
        \/ Z.of_nat (List.length elements) <= index ->
        visit (Index index) (PyList elements) = Ok PyNone)
  /\ (forall nodes value,
        has_values value = false ->
        visit (WildcardValues nodes) value = Ok PyNone).
Proof.
  split_and.
  - intros name value H. simpl. unfold visit_Field.
    now rewrite value_get_no_attribute.
  - intros name items H. simpl. unfold visit_Field. simpl.
    now rewrite dict_get_absent.
  - intros index value H. destruct value; simpl in *; congruence.
  - intros index elements H. simpl.
    now rewrite list_getitem_out_of_range.
  - intros nodes value H. simpl. unfold visit_WildcardValues.
    now rewrite value_values_no_attribute.
Qed.

Lemma unsatisfied_lookup_is_None_witness :
  visit (Field "a") (PyList [PyInt 1]) = Ok PyNone
  /\ visit (Field "a") (PyDict [("b", PyInt 1)]) = Ok PyNone
  /\ visit (Index 0) (PyStr "abc") = Ok PyNone
  /\ visit (Index 2) (PyList [PyInt 1; PyInt 2]) = Ok PyNone
  /\ visit (Index (-3)) (PyList [PyInt 1; PyInt 2]) = Ok PyNone
  /\ visit (WildcardValues []) (PyList [PyInt 1]) = Ok PyNone.
Proof.
  destruct unsatisfied_lookup_is_None as (HF & HK & HI & HR & HV).
  split_and.
  - apply HF. reflexivity.
  - apply HK. reflexivity.
  - apply HI. reflexivity.
  - apply HR. simpl. lia.
  - apply HR. simpl. lia.
  - apply HV. reflexivity.
Defined.

(** ** Indexing *)

(** C6, as stated, fails at [index = len]: [Index(1)] against the
    one-element list [[7]] has [|1| <= 1], yet the list has no element at
    offset 1 and the result is [None]. *)
Lemma Index_at_length_is_None :
  Z.abs 1 <= Z.of_nat (List.length [PyInt 7])
  /\ visit (Index 1) (PyList [PyInt 7]) = Ok PyNone
  /\ ~ (forall index elements,
          Z.abs index <= Z.of_nat (List.length elements) ->
          exists x,
            nth_error elements
              (Z.to_nat (if index <? 0
                         then Z.of_nat (List.length elements) + index
                         else index)) = Some x
            /\ visit (Index index) (PyList elements) = Ok x).
Proof.
  split; [simpl; lia|]. split; [reflexivity|].
  intros H. destruct (H 1 [PyInt 7]) as (x & Hx & _); [simpl; lia|].
  discriminate Hx.
Qed.

(** C6, amended. [Index(i)] against a list of length [n] returns the
    element at offset [i] when [0 <= i < n], the element at offset [n + i]
    when [-n <= i < 0], and [None] for every other [i]; against a value
    that is not a list (a string included) it returns [None]. *)
Theorem Index_python_offsets :
  forall index elements,
    (0 <= index < Z.of_nat (List.length elements) ->
       exists x,
         nth_error elements (Z.to_nat index) = Some x
         /\ visit (Index index) (PyList elements) = Ok x)
    /\ (- Z.of_nat (List.length elements) <= index < 0 ->
          exists x,
            nth_error elements
              (Z.to_nat (Z.of_nat (List.length elements) + index)) = Some x
            /\ visit (Index index) (PyList elements) = Ok x)
    /\ (index < - Z.of_nat (List.length elements)
        \/ Z.of_nat (List.length elements) <= index ->
          visit (Index index) (PyList elements) = Ok PyNone)
    /\ (forall value,
          isinstance_list value = false ->
          visit (Index index) value = Ok PyNone)
    /\ (forall s, visit (Index index) (PyStr s) = Ok PyNone).
Proof.
  intros index elements. split_and.
  - intros H. destruct (list_getitem_from_start elements index H)
      as (x & Hx & Hg).
    exists x. split; [exact Hx|]. simpl. now rewrite Hg.
  - intros H. destruct (list_getitem_from_end elements index H)
      as (x & Hx & Hg).
    exists x. split; [exact Hx|]. simpl. now rewrite Hg.
  - intros H. simpl. now rewrite list_getitem_out_of_range.
  - intros value H. destruct value; simpl in *; congruence.
  - reflexivity.
Qed.

Lemma Index_python_offsets_witness :
  (exists x,
     nth_error [PyInt 7; PyInt 8; PyInt 9] (Z.to_nat 1) = Some x
     /\ visit (Index 1) (PyList [PyInt 7; PyInt 8; PyInt 9]) = Ok x)
  /\ (exists x,
        nth_error [PyInt 7; PyInt 8; PyInt 9] (Z.to_nat (3 + -3)) = Some x
        /\ visit (Index (-3)) (PyList [PyInt 7; PyInt 8; PyInt 9]) = Ok x)
  /\ visit (Index 3) (PyList [PyInt 7; PyInt 8; PyInt 9]) = Ok PyNone
  /\ visit (Index 0) (PyDict [("a", PyInt 1)]) = Ok PyNone.
Proof.
  split_and.
  - destruct (Index_python_offsets 1 [PyInt 7; PyInt 8; PyInt 9])
      as (H & _).
    apply H. simpl. lia.
  - destruct (Index_python_offsets (-3) [PyInt 7; PyInt 8; PyInt 9])
      as (_ & H & _).
    apply H. simpl. lia.
  - destruct (Index_python_offsets 3 [PyInt 7; PyInt 8; PyInt 9])
      as (_ & _ & H & _).
    apply H. simpl. lia.
  - destruct (Index_python_offsets 0 []) as (_ & _ & _ & H & _).
    apply H. reflexivity.
Defined.

(** ** Flattening *)

(** C5. Against a list, [ListElements] returns a [_Projection] in which
    each element that is itself a list is spliced in one level and every
    other element is kept as it is; [[[1,2],[3],4]] gives [[1,2,3,4]].
    Against a value that is not a list the code does not wrap the value in
    a singleton [_Projection]: it hands the value itself to [_Projection],
    so a dict comes back as the [_Projection] of its keys, never as the
    singleton holding the dict, and [None], a number or a boolean raises
    [TypeError]. *)
Theorem ListElements_does_not_wrap_a_non_list :
  (forall nodes elements,
     visit (ListElements nodes) (PyList elements) =
       Ok (Projection
             (flat_map
                (fun element =>
                   match element with
                   | PyList l | Projection l => l
                   | _ => [element]
                   end)
                elements)))
  /\ visit (ListElements [])
       (PyList [PyList [PyInt 1; PyInt 2]; PyList [PyInt 3]; PyInt 4])
     = Ok (Projection [PyInt 1; PyInt 2; PyInt 3; PyInt 4])
  /\ visit (ListElements [])
       (PyList [PyList [PyList [PyInt 1]; PyInt 2]])
     = Ok (Projection [PyList [PyInt 1]; PyInt 2])
  /\ visit (ListElements []) (PyDict [("a", PyInt 1)])
     = Ok (Projection [PyStr "a"])
  /\ visit (SubExpression [Field "foo"; ListElements []])
       (PyDict [("foo", PyDict [("a", PyInt 1)])])
     = Ok (Projection [PyStr "a"])
  /\ (forall nodes items,
        visit (ListElements nodes) (PyDict items)
        = Ok (Projection (map (fun kv => PyStr (fst kv)) items))
        /\ visit (ListElements nodes) (PyDict items)
           <> Ok (Projection [PyDict items]))
  /\ (forall nodes, visit (ListElements nodes) PyNone = Raise TypeError)
  /\ (forall nodes z, visit (ListElements nodes) (PyInt z) = Raise TypeError)
  /\ (forall nodes b, visit (ListElements nodes) (PyBool b) = Raise TypeError).
Proof.
  split_and; try reflexivity.
  - intros nodes elements. simpl.
    now rewrite merge_elements_flat_map.
  - intros nodes items. split; [reflexivity|].
    simpl. intros [= H]. destruct items as [|kv [|kv' rest]]; discriminate H.
Qed.

(** C10. Against a [_Projection], [ListElements] does not broadcast: the
    projection is a list, so it is flattened as a whole, splicing in one
    level each of its elements that is a list (a nested [_Projection]
    included) and keeping the others. *)
Theorem ListElements_flattens_a_Projection_as_a_whole :
  (forall nodes elements,
     visit (ListElements nodes) (Projection elements) =
       Ok (Projection
             (flat_map
                (fun element =>
                   match element with
                   | PyList l | Projection l => l
                   | _ => [element]
                   end)
                elements)))
  /\ visit (ListElements [])
       (Projection
          [Projection [PyInt 1; PyList [PyInt 2]]; PyList [PyInt 3];
           PyDict [("a", PyInt 4)]; PyInt 5])
     = Ok (Projection
             [PyInt 1; PyList [PyInt 2]; PyInt 3;
              PyDict [("a", PyInt 4)]; PyInt 5]).
Proof.
  split; [|reflexivity].
  intros nodes elements. simpl.
  now rewrite merge_elements_flat_map.
Qed.

(** ** Broadcasting a field lookup *)

(** C3, as stated, fails where an element's result is a list: the result
    is not spliced into the new projection but appended to it as one
    element, re-wrapped as a [_Projection]. *)
Lemma Projection_get_does_not_splice :
  visit (SubExpression [WildcardIndex []; Field "x"])
    (PyList [PyDict [("x", PyList [PyInt 1; PyInt 2])];
             PyDict [("x", PyInt 3)]])
  = Ok (Projection [Projection [PyInt 1; PyInt 2]; PyInt 3])
  /\ visit (SubExpression [WildcardIndex []; Field "x"])
       (PyList [PyDict [("x", PyList [PyInt 1; PyInt 2])];
                PyDict [("x", PyInt 3)]])
     <> Ok (Projection [PyInt 1; PyInt 2; PyInt 3]).
Proof.
  split; [reflexivity | discriminate].
Qed.

(** C3, amended. A [Field] lookup on a [_Projection] is applied to each
    element in order: an element without [get], or whose lookup gives
    [None], contributes nothing; a result that is a list is kept as one
    element, re-wrapped as a [_Projection]; any other result is kept as it
    is; the kept results, in the order of their elements, form the new
    [_Projection].  [SubExpression(WildcardIndex(), Field("x"))] against
    [[{"x":1},{"y":2},{"x":3}]] gives [[1,3]]. *)
Theorem Projection_get_broadcast :
  (forall name elements,
     visit (Field name) (Projection elements) =
       Ok (Projection
             (flat_map
                (fun element =>
                   match value_get name element with
                   | None | Some PyNone => []
                   | Some (PyList l) | Some (Projection l) => [Projection l]
                   | Some result => [result]
                   end)
                elements)))
  /\ visit (SubExpression [WildcardIndex []; Field "x"])
       (PyList [PyDict [("x", PyInt 1)]; PyDict [("y", PyInt 2)];
                PyDict [("x", PyInt 3)]])
     = Ok (Projection [PyInt 1; PyInt 3]).
Proof.
  split; [|reflexivity].
  intros name elements. simpl. unfold visit_Field. simpl.
  do 2 f_equal.
  apply fold_left_appending with (acc := @nil Value).
  intros acc x.
  destruct (value_get name x) as [[]|]; simpl;
    try reflexivity; now rewrite app_nil_r.
Qed.

(** ** Node equality *)

Lemma list_eq_true_iff {A : Type} (eq : A -> A -> bool) xs :
  Forall (fun x => forall y, eq x y = true <-> x = y) xs ->
  forall ys, list_eq eq xs ys = true <-> xs = ys.
Proof.
  induction 1 as [|x xs Hx _ IH]; intros [|y ys]; simpl;
    try (split; [discriminate | congruence]); [tauto|].
  rewrite andb_true_iff, Hx, IH.
  split; [intros [-> ->]; reflexivity | intros [= -> ->]; auto].
Qed.

Lemma node_eq_true_iff self :
  forall other, node_eq self other = true <-> self = other.
Proof.
  induction self using Node_ind; intros other; destruct other; simpl;
    try (split; [discriminate | congruence]);
    try (rewrite list_eq_true_iff by assumption;
         split; [intros ->; reflexivity | intros [= ->]; reflexivity]).
  - rewrite String.eqb_eq. split; [intros -> | intros [= ->]]; reflexivity.
  - rewrite andb_true_iff, IHself, String.eqb_eq.
    split; [intros [-> ->] | intros [= -> ->]]; auto.
  - rewrite Z.eqb_eq. split; [intros -> | intros [= ->]]; reflexivity.
Qed.

(** C8. Node equality is structural: [__eq__] holds exactly when both
    trees are the same variant with equal fields and recursively equal
    children, so two trees that differ anywhere are unequal; [__ne__] is
    the negation of [__eq__]. *)
Theorem node_eq_structural :
  forall self other,
    (node_eq self other = true <-> self = other)
    /\ (node_eq self other = false <-> self <> other)
    /\ node_ne self other = negb (node_eq self other)
    /\ (node_ne self other = true <-> self <> other).
Proof.
  intros self other.
  pose proof (node_eq_true_iff self other) as H.
  unfold node_ne.
  destruct (node_eq self other); split_and; try reflexivity;
    split; intros; try discriminate; try tauto;
    try (exfalso; apply H0, H; reflexivity);
    try (intros E; apply H in E; discriminate).
Qed.

(** ** Exceptions *)

(** C7. The interpreter does raise on well-formed trees: [WildcardIndex]
    hands the current value to [_Projection] unchecked, so [None] (what a
    missing field evaluates to) or a number ends in [TypeError]; so does
    the branch of [ListElements] for values that are not lists. *)
Theorem WildcardIndex_of_None_raises :
  visit (WildcardIndex []) PyNone = Raise TypeError
  /\ visit (SubExpression [Field "foo"; WildcardIndex []]) (PyDict [])
     = Raise TypeError
  /\ visit (WildcardIndex []) (PyInt 4) = Raise TypeError
  /\ visit (ListElements []) PyNone = Raise TypeError
  /\ visit (SubExpression [Field "foo"; ListElements []]) (PyDict [])
     = Raise TypeError.
Proof. split_and; reflexivity. Qed.

Lemma visit_SubExpression_total nodes :
  Forall
    (fun node =>
       guarded node = true -> forall value, exists r, visit node value = Ok r)
    nodes ->
  forallb guarded nodes = true ->
  forall value, exists r, visit_SubExpression visit nodes value = Ok r.
Proof.
  induction 1 as [|node nodes Hnode _ IH]; simpl; intros Hg value.
  - eauto.
  - apply andb_true_iff in Hg as [Hg1 Hg2].
    destruct (Hnode Hg1 value) as [r ->]. simpl. auto.
Qed.

Lemma collect_list_total nodes :
  Forall
    (fun node =>
       guarded node = true -> forall value, exists r, visit node value = Ok r)
    nodes ->
  forallb guarded nodes = true ->
  forall value, exists l, collect_list visit nodes value = Ok l.
Proof.
  intros HF Hg value. unfold collect_list.
  destruct (for_append_total (fun node => visit node value) nodes)
    with (acc := @nil Value) as (ys & Hys & _).
  - rewrite forallb_forall in Hg. rewrite Forall_forall in HF |- *.
    intros node Hin. apply HF; auto.
  - eauto.
Qed.

Lemma collect_dict_total nodes :
  Forall
    (fun node =>
       guarded node = true -> forall value, exists r, visit node value = Ok r)
    nodes ->
  guarded (MultiFieldDict nodes) = true ->
  forall value collected,
    exists d, collect_dict visit nodes value collected = Ok d.
Proof.
  induction 1 as [|node nodes Hnode _ IH]; simpl; intros Hg value collected.
  - eauto.
  - apply andb_true_iff in Hg as [Hg1 Hg2].
    destruct node; try discriminate.
    destruct (Hnode Hg1 value) as [r Hr]. rewrite Hr. simpl.
    apply IH. exact Hg2.
Qed.

(** On a [_Projection], both broadcasts return one result per element as
    soon as the per-element construction cannot raise. *)
Lemma multi_get_total nodes :
  (forall element, exists d, collect_dict visit nodes element [] = Ok d) ->
  forall self elements,
    self = Projection elements ->
    exists results,
      multi_get visit nodes self = Ok (Projection results)
      /\ List.length results = List.length elements.
Proof.
  intros Hitem self.
  induction self as [ |b|z|s|l _|items _|els IH] using Value_ind;
    intros elements; try discriminate. intros [= <-]. simpl.
  destruct (for_append_total
              (fun element =>
                 match element with
                 | Projection _ => multi_get visit nodes element
                 | _ => d <- collect_dict visit nodes element [] ;;
                        Ok (PyDict d)
                 end) els) with (acc := @nil Value) as (ys & Hys & Hlen).
  - apply Forall_impl with (2 := IH). intros element Helem.
    destruct element.
    all: try (match goal with
              | |- exists y, bind (collect_dict visit _ ?e []) _ = _ =>
                  destruct (Hitem e) as [d' ->]; simpl; eauto
              end).
    destruct (Helem _ eq_refl) as (rs & -> & _). eauto.
  - rewrite Hys. simpl. eauto.
Qed.

Lemma multi_get_list_total nodes :
  (forall element, exists l, collect_list visit nodes element = Ok l) ->
  forall self elements,
    self = Projection elements ->
    exists results,
      multi_get_list visit nodes self = Ok (Projection results)
      /\ List.length results = List.length elements.
Proof.
  intros Hitem self.
  induction self as [ |b|z|s|l _|items _|els IH] using Value_ind;
    intros elements; try discriminate. intros [= <-]. simpl.
  destruct (for_append_total
              (fun element =>
                 match element with
                 | Projection _ => multi_get_list visit nodes element
                 | _ => l <- collect_list visit nodes element ;;
                        Ok (PyList l)
                 end) els) with (acc := @nil Value) as (ys & Hys & Hlen).
  - apply Forall_impl with (2 := IH). intros element Helem.
    destruct element.
    all: try (match goal with
              | |- exists y, bind (collect_list visit _ ?e) _ = _ =>
                  destruct (Hitem e) as [l' ->]; simpl; eauto
              end).
    destruct (Helem _ eq_refl) as (rs & -> & _). eauto.
  - rewrite Hys. simpl. eauto.
Qed.

(** Evaluation of a guarded tree returns a value, whatever the input. *)
Lemma guarded_never_raises node :
  guarded node = true -> forall value, exists r, visit node value = Ok r.
Proof.
  induction node as
    [nodes IH|name|nodes IH|nodes IH|key_name child IH|index
    |nodes _|nodes _|nodes _|nodes IH] using Node_ind;
    intros Hg value; try discriminate.
  - apply visit_SubExpression_total; assumption.
  - simpl. unfold visit_Field. destruct (value_get name value); eauto.
  - simpl. destruct value; simpl; eauto.
    all: try (match goal with
              | |- exists r, bind (collect_dict visit _ ?v []) _ = _ =>
                  destruct (collect_dict_total nodes IH Hg v [])
                    as [d ->]; simpl; eauto
              end).
    destruct (multi_get_total nodes
                (fun element => collect_dict_total nodes IH Hg element [])
                (Projection elements) elements eq_refl) as (rs & Hrs & _).
    simpl in Hrs. rewrite Hrs. eauto.
  - simpl. destruct value; simpl; eauto.
    all: try (match goal with
              | |- exists r, bind (collect_list visit _ ?v) _ = _ =>
                  destruct (collect_list_total nodes IH Hg v)
                    as [l' ->]; simpl; eauto
              end).
    destruct (multi_get_list_total nodes
                (fun element => collect_list_total nodes IH Hg element)
                (Projection elements) elements eq_refl) as (rs & Hrs & _).
    simpl in Hrs. rewrite Hrs. eauto.
  - simpl. unfold visit_KeyValPair. apply IH. exact Hg.
  - simpl. destruct value; simpl; eauto.
    destruct (list_getitem elements index); eauto.
  - simpl. unfold visit_WildcardValues.
    destruct (value_values value); eauto.
  - simpl in Hg.
    destruct nodes as [|lhs [|rhs [|]]]; try discriminate.
    apply andb_true_iff in Hg as [Hl Hr].
    inversion IH as [|? ? IHl IH']; subst.
    inversion IH' as [|? ? IHr _]; subst.
    simpl. unfold visit_ORExpression.
    destruct (IHl Hl value) as [r ->]. simpl.
    destruct (is_None r); eauto.
Qed.

(** ** Broadcasting a multi-field selection *)

Lemma multi_get_list_Ok nodes elements r :
  multi_get_list visit nodes (Projection elements) = Ok r ->
  exists results,
    r = Projection results
    /\ Forall2
         (fun element result =>
            match element with
            | Projection _ => multi_get_list visit nodes element = Ok result
            | _ =>
                exists items,
                  result = PyList items
                  /\ Forall2 (fun node item => visit node element = Ok item)
                       nodes items
            end)
         elements results.
Proof.
  simpl.
  match goal with
  | |- bind ?loop _ = _ -> _ => destruct loop as [ys|e] eqn:E
  end; simpl; [|discriminate].
  intros [= <-]. apply for_append_Ok in E as (results & -> & HF).
  exists results. split; [reflexivity|].
  eapply Forall2_impl; [|exact HF].
  intros element result H.
  destruct element; try exact H.
  all: destruct (collect_list visit nodes _) as [collected|e] eqn:E;
    simpl in H; [|discriminate];
    injection H as <-;
    apply for_append_Ok in E as (items' & -> & HF');
    exists items'; auto.
Qed.

Lemma multi_get_Ok nodes elements r :
  multi_get visit nodes (Projection elements) = Ok r ->
  exists results,
    r = Projection results
    /\ Forall2
         (fun element result =>
            match element with
            | Projection _ => multi_get visit nodes element = Ok result
            | _ =>
                exists d,
                  result = PyDict d
                  /\ collect_dict visit nodes element [] = Ok d
            end)
         elements results.
Proof.
  simpl.
  match goal with
  | |- bind ?loop _ = _ -> _ => destruct loop as [ys|e] eqn:E
  end; simpl; [|discriminate].
  intros [= <-]. apply for_append_Ok in E as (results & -> & HF).
  exists results. split; [reflexivity|].
  eapply Forall2_impl; [|exact HF].
  intros element result H.
  destruct element; try exact H.
  all: destruct (collect_dict visit nodes _ []) as [collected|e] eqn:E;
    simpl in H; [|discriminate];
    injection H as <-; exists collected; auto.
Qed.

(** C4. A [MultiFieldList] or [MultiFieldDict] evaluated against a
    [_Projection] gives one result per element, in order: the recursive
    broadcast for an element that is itself a [_Projection], and otherwise
    the list (the dict) of the children's results on that element, [None]
    results included; no element is dropped.  The result exists as soon as
    the children cannot raise.
    [SubExpression(WildcardIndex(), MultiFieldList([Field("x")]))] against
    [[{"x":1},{"y":2}]] gives [[[1],[None]]]. *)
Theorem multi_field_broadcast_keeps_every_element :
  (forall nodes elements,
     (forall r,
        visit (MultiFieldList nodes) (Projection elements) = Ok r ->
        exists results,
          r = Projection results
          /\ List.length results = List.length elements
          /\ Forall2
               (fun element result =>
                  match element with
                  | Projection _ =>
                      visit (MultiFieldList nodes) element = Ok result
                  | _ =>
                      exists items,
                        result = PyList items
                        /\ Forall2
                             (fun node item => visit node element = Ok item)
                             nodes items
                  end)
               elements results)
     /\ (forall r,
           visit (MultiFieldDict nodes) (Projection elements) = Ok r ->
           exists results,
             r = Projection results
             /\ List.length results = List.length elements
             /\ Forall2
                  (fun element result =>
                     match element with
                     | Projection _ =>
                         visit (MultiFieldDict nodes) element = Ok result
                     | _ =>
                         exists d,
                           result = PyDict d
                           /\ collect_dict visit nodes element [] = Ok d
                     end)
                  elements results)
     /\ (guarded (MultiFieldList nodes) = true ->
         exists results,
           visit (MultiFieldList nodes) (Projection elements)
             = Ok (Projection results)
           /\ List.length results = List.length elements)
     /\ (guarded (MultiFieldDict nodes) = true ->
         exists results,
           visit (MultiFieldDict nodes) (Projection elements)
             = Ok (Projection results)
           /\ List.length results = List.length elements))
  /\ visit (SubExpression [WildcardIndex []; MultiFieldList [Field "x"]])
       (PyList [PyDict [("x", PyInt 1)]; PyDict [("y", PyInt 2)]])
     = Ok (Projection [PyList [PyInt 1]; PyList [PyNone]])
  /\ visit (MultiFieldDict [KeyValPair "k" (Field "x")])
       (Projection
          [PyDict [("x", PyInt 1)]; PyNone;
           Projection [PyDict [("y", PyInt 2)]]])
     = Ok (Projection
             [PyDict [("k", PyInt 1)]; PyDict [("k", PyNone)];
              Projection [PyDict [("k", PyNone)]]]).
Proof.
  split; [|split; reflexivity].
  intros nodes elements. split_and.
  - intros r H. apply multi_get_list_Ok in H as (results & -> & HF).
    exists results. split; [reflexivity|].
    split; [symmetry; exact (Forall2_length HF)|].
    eapply Forall2_impl; [|exact HF].
    intros element result H. destruct element; exact H.
  - intros r H. apply multi_get_Ok in H as (results & -> & HF).
    exists results. split; [reflexivity|].
    split; [symmetry; exact (Forall2_length HF)|].
    eapply Forall2_impl; [|exact HF].
    intros element result H. destruct element; exact H.
  - intros Hg.
    destruct (guarded_never_raises (MultiFieldList nodes) Hg
                (Projection elements)) as [r Hr].
    pose proof Hr as Hr'.
    apply multi_get_list_Ok in Hr' as (results & -> & HF).
    exists results. split; [exact Hr|].
    symmetry; exact (Forall2_length HF).
  - intros Hg.
    destruct (guarded_never_raises (MultiFieldDict nodes) Hg
                (Projection elements)) as [r Hr].
    pose proof Hr as Hr'.
    apply multi_get_Ok in Hr' as (results & -> & HF).
    exists results. split; [exact Hr|].
    symmetry; exact (Forall2_length HF).
Qed.

Lemma multi_field_broadcast_keeps_every_element_witness :
  (exists results,
     Projection [PyList [PyInt 1]; PyList [PyNone]] = Projection results
     /\ List.length results
        = List.length [PyDict [("x", PyInt 1)]; PyDict [("y", PyInt 2)]]
     /\ Forall2
          (fun element result =>
             match element with
             | Projection _ =>
                 visit (MultiFieldList [Field "x"]) element = Ok result
             | _ =>
                 exists items,
                   result = PyList items
                   /\ Forall2
                        (fun node item => visit node element = Ok item)
                        [Field "x"] items
             end)
          [PyDict [("x", PyInt 1)]; PyDict [("y", PyInt 2)]] results)
  /\ (exists results,
        Projection [PyDict [("k", PyInt 1)]; PyDict [("k", PyNone)]]
          = Projection results
        /\ List.length results
           = List.length [PyDict [("x", PyInt 1)]; PyDict [("y", PyInt 2)]]
        /\ Forall2
             (fun element result =>
                match element with
                | Projection _ =>
                    visit (MultiFieldDict [KeyValPair "k" (Field "x")])
                      element = Ok result
                | _ =>
                    exists d,
                      result = PyDict d
                      /\ collect_dict visit [KeyValPair "k" (Field "x")]
                           element [] = Ok d
                end)
             [PyDict [("x", PyInt 1)]; PyDict [("y", PyInt 2)]] results)
  /\ (exists results,
        visit (MultiFieldList [Field "x"; Index 0])
          (Projection [PyNone; PyInt 3; Projection [PyStr "a"]])
          = Ok (Projection results)
        /\ List.length results
           = List.length [PyNone; PyInt 3; Projection [PyStr "a"]])
  /\ (exists results,
        visit (MultiFieldDict [KeyValPair "k" (Field "x")])
          (Projection [PyNone; PyInt 3; Projection [PyStr "a"]])
          = Ok (Projection results)
        /\ List.length results
           = List.length [PyNone; PyInt 3; Projection [PyStr "a"]]).
Proof.
  split_and.
  - destruct multi_field_broadcast_keeps_every_element as (H & _).
    destruct (H [Field "x"]
                [PyDict [("x", PyInt 1)]; PyDict [("y", PyInt 2)]])
      as (HL & _).
    apply HL. reflexivity.
  - destruct multi_field_broadcast_keeps_every_element as (H & _).
    destruct (H [KeyValPair "k" (Field "x")]
                [PyDict [("x", PyInt 1)]; PyDict [("y", PyInt 2)]])
      as (_ & HD & _).
    apply HD. reflexivity.
  - destruct multi_field_broadcast_keeps_every_element as (H & _).
    destruct (H [Field "x"; Index 0]
                [PyNone; PyInt 3; Projection [PyStr "a"]])
      as (_ & _ & HT & _).
    apply HT. reflexivity.
  - destruct multi_field_broadcast_keeps_every_element as (H & _).
    destruct (H [KeyValPair "k" (Field "x")]
                [PyNone; PyInt 3; Projection [PyStr "a"]])
      as (_ & _ & _ & HT).
    apply HT. reflexivity.
Defined.

(** ** The dict built by a multi-field selection *)

Lemma dict_mem_false_iff items key :
  dict_mem items key = false <-> ~ In key (map fst items).
Proof.
  induction items as [|[k v] rest IH]; simpl; [tauto|].
  destruct (String.eqb_spec k key) as [->|Hne].
  - split; [discriminate | intros H; exfalso; apply H; auto].
  - rewrite IH. tauto.
Qed.

Lemma dict_set_fresh items key v :
  dict_mem items key = false -> dict_set items key v = items ++ [(key, v)].
Proof.
  induction items as [|[k old] rest IH]; simpl; [reflexivity|].
  destruct (String.eqb k key); [discriminate|].
  intros H. now rewrite IH.
Qed.

(** With pairwise distinct keys, the dict holds one item per [KeyValPair],
    in declaration order, pairing its key with its child's result. *)
Lemma collect_dict_distinct_keys pairs value vs :
  Forall2 (fun p v => visit (snd p) value = Ok v) pairs vs ->
  forall collected,
    NoDup (map fst collected ++ map fst pairs) ->
    collect_dict visit (map (fun p => KeyValPair (fst p) (snd p)) pairs)
      value collected
    = Ok (collected ++ combine (map fst pairs) vs).
Proof.
  induction 1 as [|[k child] v ps vs' Hv _ IH]; intros collected Hnd; simpl.
  - now rewrite app_nil_r.
  - unfold visit_KeyValPair. simpl in Hv. rewrite Hv. simpl.
    rewrite dict_set_fresh.
    + rewrite IH; [now rewrite <- app_assoc|].
      rewrite map_app, <- app_assoc. exact Hnd.
    + apply dict_mem_false_iff. simpl in Hnd.
      apply NoDup_remove_2 in Hnd. intros Hin. apply Hnd.
      apply in_or_app. auto.
Qed.

(** ** End-to-end evaluations *)

(** [people[*].first], [a.b] and [*] on small documents. *)
Lemma search_examples :
  search (SubExpression [Field "people"; WildcardIndex []; Field "first"])
    (PyDict
       [("people",
         PyList [PyDict [("first", PyStr "a"); ("last", PyStr "b")];
                 PyDict [("first", PyStr "c")]])])
  = Ok (Projection [PyStr "a"; PyStr "c"])
  /\ search (SubExpression [Field "a"; Field "b"])
       (PyDict [("a", PyDict [("b", PyInt 5)])]) = Ok (PyInt 5)
  /\ search (SubExpression [Field "a"; Field "b"])
       (PyDict [("a", PyNone)]) = Ok PyNone
  /\ search (SubExpression [Field "a"; Field "b"]) (PyDict []) = Ok PyNone
  /\ search (WildcardValues []) (PyDict [("a", PyInt 1); ("b", PyInt 2)])
     = Ok (Projection [PyInt 1; PyInt 2])
  /\ search (MultiFieldList [Field "a"; Field "b"])
       (PyDict [("a", PyInt 1); ("b", PyInt 2)])
     = Ok (PyList [PyInt 1; PyInt 2])
  /\ search
       (MultiFieldDict [KeyValPair "x" (Field "a"); KeyValPair "y" (Field "b")])
       (PyDict [("a", PyInt 1); ("b", PyInt 2)])
     = Ok (PyDict [("x", PyInt 1); ("y", PyInt 2)]).
Proof. split_and; reflexivity. Qed.

(** * Further properties of the interpreter *)

(** ** Pipelines compose *)

Lemma visit_SubExpression_app xs ys value :
  visit_SubExpression visit (xs ++ ys) value =
    (result <- visit_SubExpression visit xs value ;;
     visit_SubExpression visit ys result).
Proof.
  revert value. induction xs as [|x xs IH]; intros value; simpl.
  - reflexivity.
  - destruct (visit x value) as [r|e]; simpl; auto.
Qed.

(** X1. Evaluating a pipeline [xs ++ ys] is evaluating [xs] and feeding
    its result to [ys]; an exception raised in [xs] is the result, and
    [ys] is not run.  Hence nesting pipelines changes nothing, and a
    one-stage pipeline is its stage. *)
Theorem SubExpression_composes :
  forall xs ys value,
    visit (SubExpression (xs ++ ys)) value =
      match visit (SubExpression xs) value with
      | Ok result => visit (SubExpression ys) result
      | Raise e => Raise e
      end
    /\ visit (SubExpression [SubExpression xs; SubExpression ys]) value
       = visit (SubExpression (xs ++ ys)) value
    /\ (forall node, visit (SubExpression [node]) value = visit node value).
Proof.
  intros xs ys value. split_and.
  - simpl. rewrite visit_SubExpression_app. reflexivity.
  - simpl. rewrite visit_SubExpression_app.
    destruct (visit_SubExpression visit xs value) as [r|e]; simpl; auto.
    destruct (visit_SubExpression visit ys r); reflexivity.
  - intros node. simpl. destruct (visit node value); reflexivity.
Qed.

(** ** The algebra of OR *)

(** X2. OR-fallback is associative, and falling back on the same
    expression changes nothing. *)
Theorem ORExpression_assoc_idem :
  forall a b c value,
    visit (ORExpression [ORExpression [a; b]; c]) value
    = visit (ORExpression [a; ORExpression [b; c]]) value
    /\ visit (ORExpression [a; a]) value = visit a value.
Proof.
  intros a b c value. split.
  - simpl. unfold visit_ORExpression.
    destruct (visit a value) as [[]|e]; simpl; reflexivity.
  - simpl. unfold visit_ORExpression.
    destruct (visit a value) as [[]|e] eqn:E; simpl; auto.
Qed.

(** X3. The children of an [ORExpression] beyond the second are never
    evaluated; with the right child missing, the left result is returned
    when it is not [None], and fetching [nodes[1]] raises [IndexError]
    when it is; without children, [nodes[0]] raises [IndexError]. *)
Theorem ORExpression_children :
  forall lhs value,
    (forall rhs extra,
       visit (ORExpression (lhs :: rhs :: extra)) value
       = visit (ORExpression [lhs; rhs]) value)
    /\ (forall result,
          visit lhs value = Ok result -> result <> PyNone ->
          visit (ORExpression [lhs]) value = Ok result)
    /\ (visit lhs value = Ok PyNone ->
        visit (ORExpression [lhs]) value = Raise IndexError)
    /\ visit (ORExpression []) value = Raise IndexError.
Proof.
  intros lhs value. split_and; try reflexivity.
  - intros result H Hnn. simpl. unfold visit_ORExpression.
    rewrite H. simpl. destruct result; simpl; congruence.
  - intros H. simpl. unfold visit_ORExpression. now rewrite H.
Qed.

Lemma ORExpression_children_witness :
  visit (ORExpression [Field "a"]) (PyDict [("a", PyInt 1)]) = Ok (PyInt 1)
  /\ visit (ORExpression [Field "a"]) (PyDict []) = Raise IndexError.
Proof.
  split.
  - destruct (ORExpression_children (Field "a") (PyDict [("a", PyInt 1)]))
      as (_ & H & _).
    apply H; [reflexivity | discriminate].
  - destruct (ORExpression_children (Field "a") (PyDict []))
      as (_ & _ & H & _).
    apply H. reflexivity.
Defined.

(** ** Broadcasts over a [_Projection] *)

Lemma flat_map_length_le {A B : Type} (g : A -> list B) xs :
  (forall x, (List.length (g x) <= 1)%nat) ->
  (List.length (flat_map g xs) <= List.length xs)%nat.
Proof.
  intros Hg. induction xs as [|x xs IH]; simpl; [lia|].
  rewrite length_app. specialize (Hg x). lia.
Qed.

Lemma flat_map_flat_map {A B C : Type} (f : A -> list B) (g : B -> list C) xs :
  flat_map g (flat_map f xs) = flat_map (fun x => flat_map g (f x)) xs.
Proof.
  induction xs as [|x xs IH]; simpl; [reflexivity|].
  now rewrite flat_map_app, IH.
Qed.

Lemma value_get_Projection name elements :
  value_get name (Projection elements) =
    Some (Projection
            (flat_map
               (fun element =>
                  match value_get name element with
                  | None | Some PyNone => []
                  | Some (PyList l) | Some (Projection l) => [Projection l]
                  | Some result => [result]
                  end)
               elements)).
Proof.
  simpl. do 2 f_equal.
  apply fold_left_appending with (acc := @nil Value).
  intros acc x.
  destruct (value_get name x) as [[]|]; simpl;
    try reflexivity; now rewrite app_nil_r.
Qed.

Lemma value_values_Projection elements :
  value_values (Projection elements) =
    Some (flat_map
            (fun element =>
               match value_values element with
               | Some vs => [Projection vs]
               | None => []
               end)
            elements).
Proof.
  simpl. f_equal.
  apply fold_left_appending with (acc := @nil Value).
  intros acc x.
  destruct (value_values x); simpl; try reflexivity; now rewrite app_nil_r.
Qed.

Lemma get_index_flat_map elements index :
  get_index elements index =
    Projection
      (flat_map
         (fun el =>
            match el with
            | PyList l | Projection l =>
                match list_getitem l index with
                | Some x => [x]
                | None => []
                end
            | _ => []
            end)
         elements).
Proof.
  unfold get_index. f_equal.
  apply fold_left_appending with (acc := @nil Value).
  intros acc x.
  destruct x; simpl; try (now rewrite app_nil_r);
    destruct (list_getitem _ index); simpl;
    try reflexivity; now rewrite app_nil_r.
Qed.

(** X4. [Index] on a [_Projection] never gives [None]: it returns the
    [_Projection] of the elements found at that index in those elements
    that are lists, in order; elements that are not lists, or too short,
    are dropped.  An element that is itself a [_Projection] is indexed
    like a plain list. *)
Theorem Index_broadcast :
  forall index elements,
    visit (Index index) (Projection elements) =
      Ok (Projection
            (flat_map
               (fun el =>
                  match el with
                  | PyList l | Projection l =>
                      match list_getitem l index with
                      | Some x => [x]
                      | None => []
                      end
                  | _ => []
                  end)
               elements))
    /\ exists results,
         visit (Index index) (Projection elements) = Ok (Projection results)
         /\ (List.length results <= List.length elements)%nat.
Proof.
  intros index elements. simpl. rewrite get_index_flat_map.
  split; [reflexivity|].
  eexists. split; [reflexivity|].
  apply flat_map_length_le. intros [] ; simpl; try lia;
    destruct (list_getitem _ index); simpl; lia.
Qed.

(** X5. [WildcardValues] on a dict returns the [_Projection] of its
    values, one per key, in insertion order.  On a [_Projection] it
    returns one nested [_Projection] per element that has [values], in
    order, and drops the others: every element of the result is a
    [_Projection]. *)
Theorem WildcardValues_broadcast :
  forall nodes,
    (forall items,
       visit (WildcardValues nodes) (PyDict items)
       = Ok (Projection (map snd items)))
    /\ (forall elements,
          visit (WildcardValues nodes) (Projection elements) =
            Ok (Projection
                  (flat_map
                     (fun element =>
                        match value_values element with
                        | Some vs => [Projection vs]
                        | None => []
                        end)
                     elements)))
    /\ (forall elements,
          exists results,
            visit (WildcardValues nodes) (Projection elements)
            = Ok (Projection results)
            /\ (List.length results <= List.length elements)%nat
            /\ Forall (fun r => exists vs, r = Projection vs) results).
Proof.
  intros nodes. split_and.
  - reflexivity.
  - intros elements. cbn [visit]. unfold visit_WildcardValues.
    now rewrite value_values_Projection.
  - intros elements. cbn [visit]. unfold visit_WildcardValues.
    rewrite value_values_Projection.
    eexists. split; [reflexivity|]. split.
    + apply flat_map_length_le. intros x.
      destruct (value_values x); simpl; lia.
    + apply Forall_flat_map. apply Forall_forall. intros x _.
      destruct (value_values x); repeat constructor. eauto.
Qed.

(** X6. The [_Projection] returned by a [Field] lookup on a
    [_Projection] holds at most one result per element, no [None], and no
    plain list: every list in it has been re-wrapped as a [_Projection]. *)
Theorem Field_broadcast_invariant :
  forall name elements,
    exists results,
      visit (Field name) (Projection elements) = Ok (Projection results)
      /\ (List.length results <= List.length elements)%nat
      /\ Forall (fun r => r <> PyNone /\ forall l, r <> PyList l) results.
Proof.
  intros name elements. cbn [visit]. unfold visit_Field.
  rewrite value_get_Projection.
  eexists. split; [reflexivity|]. split.
  - apply flat_map_length_le. intros x.
    destruct (value_get name x) as [[]|]; simpl; lia.
  - apply Forall_flat_map. apply Forall_forall. intros x _.
    destruct (value_get name x) as [[]|]; repeat constructor;
      try discriminate; intros ? ; discriminate.
Qed.

(** X7. A [Field] lookup on a [_Projection] followed by [ListElements]
    splices the lists found under the field one level: the result holds,
    for each element in order, the items of its result when that is a
    list, and the result itself otherwise, [None] results dropped. *)
Theorem Field_then_ListElements_splices :
  forall name nodes elements,
    visit (SubExpression [Field name; ListElements nodes])
      (Projection elements) =
      Ok (Projection
            (flat_map
               (fun element =>
                  match value_get name element with
                  | None | Some PyNone => []
                  | Some (PyList l) | Some (Projection l) => l
                  | Some result => [result]
                  end)
               elements)).
Proof.
  intros name nodes elements.
  cbn [visit visit_SubExpression]. unfold visit_Field.
  rewrite value_get_Projection. cbn [bind visit visit_ListElements].
  rewrite merge_elements_flat_map, flat_map_flat_map.
  do 2 f_equal. apply flat_map_ext. intros x.
  destruct (value_get name x) as [[]|]; simpl;
    try reflexivity; now rewrite app_nil_r.
Qed.

(** ** Once a [_Projection], always a [_Projection] *)

Lemma visit_Projection_shape node :
  forall elements r,
    visit node (Projection elements) = Ok r ->
    exists results, r = Projection results.
Proof.
  induction node as
    [nodes IH|name|nodes _|nodes _|key_name child IH|index
    |nodes _|nodes _|nodes _|nodes IH] using Node_ind;
    intros elements r.
  - cbn [visit]. revert elements.
    induction IH as [|node nodes Hnode _ IHnodes]; intros elements; simpl.
    + intros [= <-]. eauto.
    + destruct (visit node (Projection elements)) as [r0|e] eqn:E;
        simpl; [|discriminate].
      destruct (Hnode _ _ E) as [rs ->]. apply IHnodes.
  - cbn [visit]. unfold visit_Field. rewrite value_get_Projection.
    intros [= <-]. eauto.
  - intros H. apply multi_get_Ok in H as (results & -> & _). eauto.
  - intros H. apply multi_get_list_Ok in H as (results & -> & _). eauto.
  - cbn [visit]. unfold visit_KeyValPair. apply IH.
  - cbn [visit visit_Index]. rewrite get_index_flat_map.
    intros [= <-]. eauto.
  - simpl. intros [= <-]. eauto.
  - cbn [visit]. unfold visit_WildcardValues.
    rewrite value_values_Projection. intros [= <-]. eauto.
  - simpl. intros [= <-]. eauto.
  - cbn [visit]. unfold visit_ORExpression.
    destruct IH as [|lhs rest Hlhs _]; [discriminate|].
    destruct (visit lhs (Projection elements)) as [r0|e] eqn:E;
      simpl; [|discriminate].
    destruct (Hlhs _ _ E) as [rs ->]. simpl. intros [= <-]. eauto.
Qed.

(** X8. Whatever the expression, evaluating it against a [_Projection]
    returns a [_Projection] when it returns: never [None], never a plain
    value. *)
Theorem Projection_in_Projection_out :
  forall node elements r,
    visit node (Projection elements) = Ok r ->
    (exists results, r = Projection results) /\ r <> PyNone.
Proof.
  intros node elements r H.
  destruct (visit_Projection_shape node elements r H) as [rs ->].
  split; [eauto | discriminate].
Qed.

Lemma Projection_in_Projection_out_witness :
  (exists results,
     Projection [PyStr "a"] = Projection results)
  /\ Projection [PyStr "a"] <> PyNone.
Proof.
  apply (Projection_in_Projection_out
           (SubExpression [Field "first"; ListElements []])
           [PyDict [("first", PyStr "a")]; PyInt 3]).
  reflexivity.
Defined.

(** X9. Against a [_Projection] an [ORExpression] never falls back: its
    result is that of its left child, even with the right child missing. *)
Theorem ORExpression_on_Projection :
  forall lhs rest elements,
    visit (ORExpression (lhs :: rest)) (Projection elements)
    = visit lhs (Projection elements).
Proof.
  intros lhs rest elements. cbn [visit]. unfold visit_ORExpression.
  destruct (visit lhs (Projection elements)) as [r|e] eqn:E;
    simpl; [|reflexivity].
  destruct (visit_Projection_shape lhs elements r) as [rs ->];
    [|reflexivity].
  exact E.
Qed.

(** X10. [WildcardIndex] is idempotent, exceptions included: a second
    wildcard copies the [_Projection] made by the first. *)
Theorem WildcardIndex_idempotent :
  forall a b value,
    visit (SubExpression [WildcardIndex a; WildcardIndex b]) value
    = visit (WildcardIndex a) value
    /\ (forall elements,
          visit (WildcardIndex a) (PyList elements)
          = Ok (Projection elements))
    /\ (forall elements,
          visit (WildcardIndex a) (Projection elements)
          = Ok (Projection elements)).
Proof.
  intros a b value. split_and; try reflexivity.
  destruct value; reflexivity.
Qed.

(** ** Which exceptions escape, and from where *)

Lemma for_append_Raise {A B : Type} (body : A -> Result B) xs :
  forall acc e,
    for_append body xs acc = Raise e ->
    exists x, In x xs /\ body x = Raise e.
Proof.
  induction xs as [|x xs IH]; intros acc e; simpl; [discriminate|].
  destruct (body x) as [y|e'] eqn:Hx; simpl.
  - intros H. apply IH in H as (x' & Hin & Hx'). eauto.
  - intros [= <-]. eauto.
Qed.

Lemma visit_SubExpression_only_TypeError nodes :
  Forall
    (fun node =>
       well_formed node = true ->
       forall value e, visit node value = Raise e -> e = TypeError)
    nodes ->
  forallb well_formed nodes = true ->
  forall value e,
    visit_SubExpression visit nodes value = Raise e -> e = TypeError.
Proof.
  induction 1 as [|node rest Hnode _ IHrest]; simpl; intros Hwf value e.
  - discriminate.
  - apply andb_true_iff in Hwf as [Hwf1 Hwf2].
    destruct (visit node value) as [r|e'] eqn:E; simpl.
    + apply IHrest; assumption.
    + intros [= <-]. eapply Hnode; eassumption.
Qed.

Lemma collect_list_only_TypeError nodes :
  Forall
    (fun node =>
       well_formed node = true ->
       forall value e, visit node value = Raise e -> e = TypeError)
    nodes ->
  forallb well_formed nodes = true ->
  forall value e, collect_list visit nodes value = Raise e -> e = TypeError.
Proof.
  intros IH Hwf value e H. unfold collect_list in H.
  apply for_append_Raise in H as (node & Hin & Hnode).
  rewrite forallb_forall in Hwf. rewrite Forall_forall in IH.
  eapply IH; eauto.
Qed.

Lemma collect_dict_only_TypeError nodes :
  Forall
    (fun node =>
       well_formed node = true ->
       forall value e, visit node value = Raise e -> e = TypeError)
    nodes ->
  well_formed (MultiFieldDict nodes) = true ->
  forall value collected e,
    collect_dict visit nodes value collected = Raise e -> e = TypeError.
Proof.
  induction 1 as [|node rest Hnode _ IHrest]; simpl;
    intros Hwf value collected e.
  - discriminate.
  - apply andb_true_iff in Hwf as [Hwf1 Hwf2].
    destruct node; try discriminate.
    destruct (visit (KeyValPair key_name node) value) as [r|e'] eqn:E.
    + simpl. apply IHrest. exact Hwf2.
    + simpl. intros [= <-]. eapply Hnode; eassumption.
Qed.

Lemma multi_get_only_TypeError nodes :
  (forall element e,
     collect_dict visit nodes element [] = Raise e -> e = TypeError) ->
  forall self elements e,
    self = Projection elements ->
    multi_get visit nodes self = Raise e -> e = TypeError.
Proof.
  intros Hitem self.
  induction self as [ |b|z|s|l _|items _|els IH] using Value_ind;
    intros elements e; try discriminate. intros _. simpl.
  match goal with
  | |- bind ?loop _ = _ -> _ => destruct loop as [ys|e'] eqn:E
  end; simpl; [discriminate|].
  intros [= <-]. apply for_append_Raise in E as (element & Hin & Helem).
  rewrite Forall_forall in IH. specialize (IH element Hin).
  destruct element; try (eapply IH; [reflexivity | exact Helem]).
  all: destruct (collect_dict visit nodes _ []) as [d|e''] eqn:E';
    simpl in Helem; [discriminate|];
    injection Helem as <-; eapply Hitem; exact E'.
Qed.

Lemma multi_get_list_only_TypeError nodes :
  (forall element e,
     collect_list visit nodes element = Raise e -> e = TypeError) ->
  forall self elements e,
    self = Projection elements ->
    multi_get_list visit nodes self = Raise e -> e = TypeError.
Proof.
  intros Hitem self.
  induction self as [ |b|z|s|l _|items _|els IH] using Value_ind;
    intros elements e; try discriminate. intros _. simpl.
  match goal with
  | |- bind ?loop _ = _ -> _ => destruct loop as [ys|e'] eqn:E
  end; simpl; [discriminate|].
  intros [= <-]. apply for_append_Raise in E as (element & Hin & Helem).
  rewrite Forall_forall in IH. specialize (IH element Hin).
  destruct element; try (eapply IH; [reflexivity | exact Helem]).
  all: destruct (collect_list visit nodes _) as [d|e''] eqn:E';
    simpl in Helem; [discriminate|];
    injection Helem as <-; eapply Hitem; exact E'.
Qed.

Lemma well_formed_only_TypeError node :
  well_formed node = true ->
  forall value e, visit node value = Raise e -> e = TypeError.
Proof.
  induction node as
    [nodes IH|name|nodes IH|nodes IH|key_name child IH|index
    |nodes _|nodes _|nodes _|nodes IH] using Node_ind;
    intros Hwf value e.
  - apply visit_SubExpression_only_TypeError; assumption.
  - cbn [visit]. unfold visit_Field.
    destruct (value_get name value); discriminate.
  - cbn [visit]. destruct value; cbn [visit_MultiFieldDict];
      try discriminate.
    all: try (match goal with
      | |- bind (collect_dict visit _ ?v []) _ = _ -> _ =>
          destruct (collect_dict visit nodes v []) as [d|e'] eqn:E;
          simpl; [discriminate|];
          intros [= <-];
          eapply collect_dict_only_TypeError; eassumption
      end).
    apply multi_get_only_TypeError with (elements := elements);
      [|reflexivity].
    intros element e'. apply collect_dict_only_TypeError; assumption.
  - cbn [visit]. destruct value; cbn [visit_MultiFieldList];
      try discriminate.
    all: try (match goal with
      | |- bind (collect_list visit _ ?v) _ = _ -> _ =>
          destruct (collect_list visit nodes v) as [d|e'] eqn:E;
          simpl; [discriminate|];
          intros [= <-];
          eapply collect_list_only_TypeError; eassumption
      end).
    apply multi_get_list_only_TypeError with (elements := elements);
      [|reflexivity].
    intros element e'. apply collect_list_only_TypeError; assumption.
  - cbn [visit]. unfold visit_KeyValPair. apply IH. exact Hwf.
  - cbn [visit]. destruct value; simpl; try discriminate.
    destruct (list_getitem elements index); discriminate.
  - cbn [visit]. unfold visit_WildcardIndex, Projection_init.
    destruct value; simpl; congruence.
  - cbn [visit]. unfold visit_WildcardValues.
    destruct (value_values value); discriminate.
  - cbn [visit]. unfold visit_ListElements, Projection_init.
    destruct value; simpl; congruence.
  - simpl in Hwf.
    destruct nodes as [|lhs [|rhs [|]]]; try discriminate.
    apply andb_true_iff in Hwf as [Hl Hr].
    inversion IH as [|? ? IHl IH']; subst.
    inversion IH' as [|? ? IHr _]; subst.
    cbn [visit]. unfold visit_ORExpression.
    destruct (visit lhs value) as [r|e'] eqn:E; simpl.
    + destruct (is_None r); [|discriminate]. apply IHr. exact Hr.
    + intros [= <-]. eapply IHl; eassumption.
Qed.

Lemma guarded_well_formed node :
  guarded node = true -> well_formed node = true.
Proof.
  induction node as
    [nodes IH|name|nodes IH|nodes IH|key_name child IH|index
    |nodes _|nodes _|nodes _|nodes IH] using Node_ind;
    simpl; intros Hg; try reflexivity; try discriminate; auto.
  - rewrite forallb_forall in *. rewrite Forall_forall in IH. auto.
  - rewrite forallb_forall in *. rewrite Forall_forall in IH.
    intros n Hin. specialize (Hg n Hin). specialize (IH n Hin).
    destruct n; try discriminate. simpl in IH. auto.
  - rewrite forallb_forall in *. rewrite Forall_forall in IH. auto.
  - destruct nodes as [|lhs [|rhs [|]]]; try discriminate.
    apply andb_true_iff in Hg as [Hl Hr].
    inversion IH as [|? ? IHl IH']; subst.
    inversion IH' as [|? ? IHr _]; subst.
    apply andb_true_iff. auto.
Qed.

(** X11. On a tree that respects the grammar (two children under every
    [ORExpression], only [KeyValPair] children under every
    [MultiFieldDict]) the only exception evaluation can raise is
    [TypeError], never [IndexError] or [AttributeError]; and a tree that
    raises contains a [WildcardIndex] or a [ListElements]. *)
Theorem well_formed_raises_only_TypeError :
  forall node value e,
    well_formed node = true ->
    search node value = Raise e ->
    e = TypeError /\ guarded node = false.
Proof.
  intros node value e Hwf H. unfold search in H. split.
  - eapply well_formed_only_TypeError; eassumption.
  - destruct (guarded node) eqn:Hg; [|reflexivity].
    destruct (guarded_never_raises node Hg value) as [r Hr]. congruence.
Qed.

Lemma well_formed_raises_only_TypeError_witness :
  TypeError = TypeError
  /\ guarded (SubExpression [Field "foo"; WildcardIndex []]) = false.
Proof.
  apply (well_formed_raises_only_TypeError
           (SubExpression [Field "foo"; WildcardIndex []])
           (PyDict []) TypeError); reflexivity.
Defined.

(** X12. An expression without [WildcardIndex] and [ListElements] that
    respects the grammar always evaluates to a value, on every input. *)
Theorem guarded_search_returns :
  forall node value,
    guarded node = true -> exists r, search node value = Ok r.
Proof.
  intros node value Hg. unfold search.
  apply guarded_never_raises. exact Hg.
Qed.

Lemma guarded_search_returns_witness :
  exists r,
    search
      (SubExpression
         [Field "a"; WildcardValues [];
          MultiFieldDict [KeyValPair "k" (ORExpression [Index 0; Field "b"])]])
      (PyInt 3) = Ok r.
Proof.
  apply (guarded_search_returns
           (SubExpression
              [Field "a"; WildcardValues [];
               MultiFieldDict
                 [KeyValPair "k" (ORExpression [Index 0; Field "b"])]])
           (PyInt 3)).
  reflexivity.
Defined.

Lemma guarded_None node :
  guarded node = true -> visit node PyNone = Ok PyNone.
Proof.
  induction node as
    [nodes IH|name|nodes _|nodes _|key_name child IH|index
    |nodes _|nodes _|nodes _|nodes IH] using Node_ind;
    intros Hg; try discriminate; try reflexivity.
  - cbn [visit]. simpl in Hg.
    induction IH as [|node nodes Hnode _ IHnodes]; simpl; [reflexivity|].
    simpl in Hg. apply andb_true_iff in Hg as [Hg1 Hg2].
    rewrite (Hnode Hg1). simpl. auto.
  - cbn [visit]. unfold visit_KeyValPair. auto.
  - simpl in Hg.
    destruct nodes as [|lhs [|rhs [|]]]; try discriminate.
    apply andb_true_iff in Hg as [Hl Hr].
    inversion IH as [|? ? IHl IH']; subst.
    inversion IH' as [|? ? IHr _]; subst.
    cbn [visit]. unfold visit_ORExpression.
    rewrite (IHl Hl). simpl. auto.
Qed.

(** X13. Null propagation: an expression without [WildcardIndex] and
    [ListElements] that respects the grammar evaluates to [None] against
    [None]; in a pipeline, once a stage gives [None] the stages after it
    give [None]. *)
Theorem None_propagates :
  forall node,
    guarded node = true ->
    search node PyNone = Ok PyNone
    /\ (forall first value,
          visit first value = Ok PyNone ->
          visit (SubExpression [first; node]) value = Ok PyNone).
Proof.
  intros node Hg. split.
  - apply guarded_None. exact Hg.
  - intros first value H. cbn [visit visit_SubExpression].
    rewrite H. simpl. now rewrite (guarded_None node Hg).
Qed.

Lemma None_propagates_witness :
  search (SubExpression [Field "a"; Index 1; WildcardValues []]) PyNone
  = Ok PyNone
  /\ visit
       (SubExpression
          [Field "a"; SubExpression [Field "a"; Index 1; WildcardValues []]])
       (PyDict []) = Ok PyNone.
Proof.
  destruct (None_propagates
              (SubExpression [Field "a"; Index 1; WildcardValues []]))
    as (H1 & H2); [reflexivity|].
  split; [exact H1|]. apply H2. reflexivity.
Defined.

(** ** Multi-field selections against a plain value *)

(** X14. Against [None] a multi-field selection is [None] and its
    children are not evaluated.  Against any other value that is not a
    [_Projection], [MultiFieldList] returns a list exactly when every
    child returns, and the list holds the children's results, one per
    child, in order, [None] results included. *)
Theorem MultiFieldList_on_plain_value :
  forall nodes,
    visit (MultiFieldList nodes) PyNone = Ok PyNone
    /\ visit (MultiFieldDict nodes) PyNone = Ok PyNone
    /\ (forall value items,
          is_None value = false -> is_Projection value = false ->
          (visit (MultiFieldList nodes) value = Ok (PyList items)
           <-> Forall2 (fun node item => visit node value = Ok item)
                 nodes items))
    /\ (forall value r,
          is_None value = false -> is_Projection value = false ->
          visit (MultiFieldList nodes) value = Ok r ->
          exists items,
            r = PyList items /\ List.length items = List.length nodes).
Proof.
  intros nodes. split_and; try reflexivity.
  - intros value items Hn Hp.
    assert (E : visit (MultiFieldList nodes) value =
                (l <- collect_list visit nodes value ;; Ok (PyList l))).
    { destruct value; try discriminate; reflexivity. }
    rewrite E. unfold collect_list. split.
    + destruct (for_append _ nodes []) as [l|e] eqn:El; simpl;
        [|discriminate].
      intros [= ->]. apply for_append_Ok in El as (ys & -> & HF).
      exact HF.
    + intros HF. rewrite (for_append_Forall2 _ _ _ HF). reflexivity.
  - intros value r Hn Hp.
    assert (E : visit (MultiFieldList nodes) value =
                (l <- collect_list visit nodes value ;; Ok (PyList l))).
    { destruct value; try discriminate; reflexivity. }
    rewrite E. unfold collect_list.
    destruct (for_append _ nodes []) as [l|e] eqn:El; simpl;
      [|discriminate].
    intros [= <-]. apply for_append_Ok in El as (ys & -> & HF).
    exists ys. split; [reflexivity|].
    symmetry. exact (Forall2_length HF).
Qed.

Lemma MultiFieldList_on_plain_value_witness :
  visit (MultiFieldList [Field "a"; Field "zz"; Index 0])
    (PyDict [("a", PyInt 1)])
  = Ok (PyList [PyInt 1; PyNone; PyNone])
  /\ exists items,
       PyList [PyInt 1; PyNone; PyNone] = PyList items
       /\ List.length items
          = List.length [Field "a"; Field "zz"; Index 0].
Proof.
  destruct (MultiFieldList_on_plain_value [Field "a"; Field "zz"; Index 0])
    as (_ & _ & H1 & H2).
  split.
  - apply H1; [reflexivity | reflexivity |].
    repeat constructor.
  - apply (H2 (PyDict [("a", PyInt 1)])); reflexivity.
Defined.

Lemma collect_dict_missing_key_name nodes :
  forall value collected,
    forallb
      (fun n => match visit n value with Ok _ => true | Raise _ => false end)
      nodes = true ->
    forallb has_key_name nodes = false ->
    collect_dict visit nodes value collected = Raise AttributeError.
Proof.
  induction nodes as [|node nodes IH]; simpl; intros value collected Hv Hk.
  - discriminate.
  - apply andb_true_iff in Hv as [Hv1 Hv2].
    destruct (visit node value) as [r|e]; [|discriminate]. simpl.
    destruct node; simpl in *; try reflexivity.
    apply IH; assumption.
Qed.

(** X15. A [MultiFieldDict] with a child that is not a [KeyValPair],
    evaluated against a value that is neither [None] nor a [_Projection]
    and on which its children return, raises [AttributeError]: the child
    has no [key_name]. *)
Theorem MultiFieldDict_child_without_key_name :
  forall nodes value,
    is_None value = false -> is_Projection value = false ->
    forallb
      (fun n => match visit n value with Ok _ => true | Raise _ => false end)
      nodes = true ->
    forallb has_key_name nodes = false ->
    visit (MultiFieldDict nodes) value = Raise AttributeError.
Proof.
  intros nodes value Hn Hp Hv Hk.
  assert (E : visit (MultiFieldDict nodes) value =
              (d <- collect_dict visit nodes value [] ;; Ok (PyDict d))).
  { destruct value; try discriminate; reflexivity. }
  rewrite E, collect_dict_missing_key_name by assumption. reflexivity.
Qed.

Lemma MultiFieldDict_child_without_key_name_witness :
  visit (MultiFieldDict [KeyValPair "k" (Field "a"); Field "b"])
    (PyDict [("a", PyInt 1)]) = Raise AttributeError.
Proof.
  apply (MultiFieldDict_child_without_key_name
           [KeyValPair "k" (Field "a"); Field "b"]
           (PyDict [("a", PyInt 1)])); reflexivity.
Defined.

(** ** The keys of the dict built by [MultiFieldDict] *)

Lemma dict_set_keys items key v :
  map fst (dict_set items key v) =
    if dict_mem items key then map fst items else map fst items ++ [key].
Proof.
  induction items as [|[k old] rest IH]; simpl; [reflexivity|].
  destruct (String.eqb k key); simpl; [reflexivity|].
  rewrite IH. destruct (dict_mem rest key); reflexivity.
Qed.

Lemma dict_get_set_same items key v :
  dict_get (dict_set items key v) key = v.
Proof.
  induction items as [|[k old] rest IH]; simpl.
  - now rewrite String.eqb_refl.
  - destruct (String.eqb k key) eqn:E; simpl; rewrite E; auto.
Qed.

Lemma dict_get_set_other items key key' v :
  key <> key' ->
  dict_get (dict_set items key v) key' = dict_get items key'.
Proof.
  intros Hne. induction items as [|[k old] rest IH]; simpl.
  - destruct (String.eqb_spec key key'); [contradiction | reflexivity].
  - destruct (String.eqb_spec k key) as [->|Hk]; simpl.
    + destruct (String.eqb_spec key key'); [contradiction | reflexivity].
    + now rewrite IH.
Qed.

Lemma dict_set_NoDup items key v :
  NoDup (map fst items) -> NoDup (map fst (dict_set items key v)).
Proof.
  intros Hnd. rewrite dict_set_keys.
  destruct (dict_mem items key) eqn:E; [exact Hnd|].
  apply dict_mem_false_iff in E.
  apply NoDup_app; [exact Hnd | repeat constructor; intros [] |].
  intros x Hx [<-|[]]. contradiction.
Qed.

Lemma dict_set_In items key v k :
  In k (map fst (dict_set items key v)) <-> In k (map fst items) \/ k = key.
Proof.
  rewrite dict_set_keys.
  destruct (dict_mem items key) eqn:E.
  - split; [auto|]. intros [H| ->]; [exact H|].
    destruct (in_dec string_dec key (map fst items)) as [Hin|Hnin];
      [exact Hin|].
    apply dict_mem_false_iff in Hnin. congruence.
  - rewrite in_app_iff. simpl. intuition.
Qed.

Lemma collect_dict_app xs ys value collected :
  collect_dict visit (xs ++ ys) value collected =
    (d <- collect_dict visit xs value collected ;;
     collect_dict visit ys value d).
Proof.
  revert collected. induction xs as [|x xs IH]; intros collected; simpl.
  - reflexivity.
  - destruct (visit x value) as [r|e]; simpl; [|reflexivity].
    destruct (key_name_of x) as [k|e]; simpl; auto.
Qed.

Lemma collect_dict_keys nodes value :
  forall collected d,
    collect_dict visit nodes value collected = Ok d ->
    NoDup (map fst collected) ->
    NoDup (map fst d)
    /\ forall k,
         In k (map fst d) <->
         In k (map fst collected) \/ exists child, In (KeyValPair k child) nodes.
Proof.
  induction nodes as [|node nodes IH]; simpl; intros collected d.
  - intros [= <-] Hnd. split; [exact Hnd|].
    intros k. split; [auto | intros [H|[c []]]; exact H].
  - destruct (visit node value) as [r|e]; simpl; [|discriminate].
    destruct node; simpl; try discriminate.
    intros H Hnd.
    apply IH in H as [Hnd' Hin]; [|apply dict_set_NoDup; exact Hnd].
    split; [exact Hnd'|].
    intros k. rewrite Hin, dict_set_In. split.
    + intros [[H| ->]|[c Hc]]; eauto.
    + intros [H|[c [Hc|Hc]]]; eauto.
      injection Hc as <- <-. auto.
Qed.

Lemma collect_dict_untouched nodes value key :
  (forall child, ~ In (KeyValPair key child) nodes) ->
  forall collected d,
    collect_dict visit nodes value collected = Ok d ->
    dict_get d key = dict_get collected key.
Proof.
  induction nodes as [|node nodes IH]; simpl; intros Hno collected d.
  - intros [= <-]. reflexivity.
  - destruct (visit node value) as [r|e]; simpl; [|discriminate].
    destruct node; simpl; try discriminate.
    intros H. apply IH in H; [|intros c Hc; apply (Hno c); auto].
    rewrite H. apply dict_get_set_other.
    intros <-. apply (Hno node). auto.
Qed.

(** X16. When [MultiFieldDict] returns against a value that is neither
    [None] nor a [_Projection], the result is a dict with pairwise
    distinct keys, and its keys are exactly the [key_name]s of the
    children. *)
Theorem MultiFieldDict_keys :
  forall nodes value r,
    is_None value = false -> is_Projection value = false ->
    visit (MultiFieldDict nodes) value = Ok r ->
    exists d,
      r = PyDict d
      /\ NoDup (map fst d)
      /\ forall k,
           In k (map fst d) <-> exists child, In (KeyValPair k child) nodes.
Proof.
  intros nodes value r Hn Hp.
  assert (E : visit (MultiFieldDict nodes) value =
              (d <- collect_dict visit nodes value [] ;; Ok (PyDict d))).
  { destruct value; try discriminate; reflexivity. }
  rewrite E.
  destruct (collect_dict visit nodes value []) as [d|e] eqn:Ed; simpl;
    [|discriminate].
  intros [= <-]. exists d. split; [reflexivity|].
  destruct (collect_dict_keys nodes value [] d Ed) as [Hnd Hin];
    [constructor|].
  split; [exact Hnd|].
  intros k. rewrite Hin. simpl. tauto.
Qed.

Lemma MultiFieldDict_keys_witness :
  exists d,
    PyDict [("x", PyInt 2); ("y", PyNone)] = PyDict d
    /\ NoDup (map fst d)
    /\ forall k,
         In k (map fst d) <->
         exists child,
           In (KeyValPair k child)
             [KeyValPair "x" (Field "a"); KeyValPair "y" (Field "c");
              KeyValPair "x" (Field "b")].
Proof.
  apply (MultiFieldDict_keys
           [KeyValPair "x" (Field "a"); KeyValPair "y" (Field "c");
            KeyValPair "x" (Field "b")]
           (PyDict [("a", PyInt 1); ("b", PyInt 2)]));
    reflexivity.
Defined.

(** X17. Under a key the dict holds the result of the last child with
    that [key_name]: a later [KeyValPair] with the same key overwrites an
    earlier one. *)
Theorem MultiFieldDict_last_child_wins :
  forall before key child after value r,
    is_None value = false -> is_Projection value = false ->
    (forall other, ~ In (KeyValPair key other) after) ->
    visit (MultiFieldDict (before ++ KeyValPair key child :: after)) value
    = Ok r ->
    exists d result,
      r = PyDict d
      /\ visit child value = Ok result
      /\ dict_get d key = result.
Proof.
  intros before key child after value r Hn Hp Hlast.
  assert (E : visit (MultiFieldDict (before ++ KeyValPair key child :: after))
                value =
              (d <- collect_dict visit
                      (before ++ KeyValPair key child :: after) value [] ;;
               Ok (PyDict d))).
  { destruct value; try discriminate; reflexivity. }
  rewrite E, collect_dict_app.
  destruct (collect_dict visit before value []) as [d0|e]; simpl;
    [|discriminate].
  unfold visit_KeyValPair.
  destruct (visit child value) as [result|e]; simpl; [|discriminate].
  destruct (collect_dict visit after value (dict_set d0 key result))
    as [d|e] eqn:Ed; simpl; [|discriminate].
  intros [= <-]. exists d, result. split_and; try reflexivity.
  rewrite (collect_dict_untouched after value key Hlast _ _ Ed).
  apply dict_get_set_same.
Qed.

Lemma MultiFieldDict_last_child_wins_witness :
  exists d result,
    PyDict [("x", PyInt 2); ("y", PyNone)] = PyDict d
    /\ visit (Field "b") (PyDict [("a", PyInt 1); ("b", PyInt 2)])
       = Ok result
    /\ dict_get d "x" = result.
Proof.
  apply (MultiFieldDict_last_child_wins
           [KeyValPair "x" (Field "a"); KeyValPair "y" (Field "c")]
           "x" (Field "b") []
           (PyDict [("a", PyInt 1); ("b", PyInt 2)]));
    try reflexivity.
  intros other [].
Defined.

(** ** Flattening, continued *)

(** X18. Flattening distributes over concatenation of the input list, and
    a list none of whose elements is a list is left as it is, however
    often it is flattened. *)
Theorem ListElements_on_flat_and_concatenated :
  forall nodes,
    (forall xs ys rx ry,
       visit (ListElements nodes) (PyList xs) = Ok (Projection rx) ->
       visit (ListElements nodes) (PyList ys) = Ok (Projection ry) ->
       visit (ListElements nodes) (PyList (xs ++ ys))
       = Ok (Projection (rx ++ ry)))
    /\ (forall elements,
          forallb (fun e => negb (isinstance_list e)) elements = true ->
          visit (ListElements nodes) (PyList elements)
          = Ok (Projection elements)
          /\ visit (SubExpression [ListElements nodes; ListElements nodes])
               (PyList elements)
             = Ok (Projection elements)).
Proof.
  intros nodes.
  assert (Flat : forall elements,
            forallb (fun e => negb (isinstance_list e)) elements = true ->
            merge_elements elements = elements).
  { intros elements H. rewrite merge_elements_flat_map.
    induction elements as [|x xs IH]; simpl; [reflexivity|].
    simpl in H. apply andb_true_iff in H as [Hx Hxs].
    rewrite (IH Hxs). destruct x; simpl in *; try discriminate;
      reflexivity. }
  split.
  - intros xs ys rx ry. cbn [visit visit_ListElements].
    rewrite !merge_elements_flat_map, flat_map_app.
    intros [= <-] [= <-]. reflexivity.
  - intros elements H. cbn [visit visit_SubExpression visit_ListElements bind].
    now rewrite !(Flat elements H).
Qed.

Lemma ListElements_on_flat_and_concatenated_witness :
  visit (ListElements []) (PyList ([PyList [PyInt 1]] ++ [PyInt 2]))
  = Ok (Projection ([PyInt 1] ++ [PyInt 2]))
  /\ visit (ListElements []) (PyList [PyInt 1; PyStr "a"])
     = Ok (Projection [PyInt 1; PyStr "a"]).
Proof.
  destruct (ListElements_on_flat_and_concatenated []) as (H1 & H2).
  split.
  - apply H1; reflexivity.
  - apply H2. reflexivity.
Defined.

(** ** Node equality, continued *)

(** X19. [__eq__] on nodes is reflexive, symmetric and transitive, and a
    node of one class never equals a node of another. *)
Theorem node_eq_equivalence :
  forall a b c,
    node_eq a a = true
    /\ node_eq a b = node_eq b a
    /\ (node_eq a b = true -> node_eq b c = true -> node_eq a c = true)
    /\ (class_name a <> class_name b -> node_eq a b = false).
Proof.
  intros a b c. split_and.
  - apply node_eq_true_iff. reflexivity.
  - destruct (node_eq a b) eqn:E1, (node_eq b a) eqn:E2; try reflexivity.
    + apply node_eq_true_iff in E1. subst.
      rewrite (proj2 (node_eq_true_iff b b) eq_refl) in E2. discriminate.
    + apply node_eq_true_iff in E2. subst.
      rewrite (proj2 (node_eq_true_iff a a) eq_refl) in E1. discriminate.
  - intros H1 H2. apply node_eq_true_iff in H1, H2. subst.
    apply node_eq_true_iff. reflexivity.
  - intros Hc. destruct (node_eq a b) eqn:E; [|reflexivity].
    apply node_eq_true_iff in E. subst. contradiction.
Qed.

Lemma node_eq_equivalence_witness :
  node_eq (SubExpression [Field "a"]) (ORExpression [Field "a"]) = false.
Proof.
  destruct (node_eq_equivalence (SubExpression [Field "a"])
              (ORExpression [Field "a"]) (Field "a")) as (_ & _ & _ & H).
  apply H. discriminate.
Defined.

(** * Properties of the printer *)

Lemma string_app_assoc (a b c : string) :
  ((a ++ b) ++ c)%string = (a ++ b ++ c)%string.
Proof. induction a as [|ch a IH]; simpl; [reflexivity | now rewrite IH]. Qed.

Lemma string_app_nil_r (a : string) : (a ++ "")%string = a.
Proof. induction a as [|ch a IH]; simpl; [reflexivity | now rewrite IH]. Qed.

Lemma children_parts_cons print node next rest indent :
  children_parts print (node :: next :: rest) indent =
    (s <- print node indent ;;
     parts <- children_parts print (next :: rest) indent ;;
     Ok ((s ++ "," ++ newline)%string :: parts)).
Proof. reflexivity. Qed.









Lemma children_parts_closed nodes indent parts :
  children_parts render nodes indent = Ok parts ->
  exists body, join parts = (body ++ ")")%string.
Proof.
  revert parts. induction nodes as [|node rest IH]; intros parts.
  - discriminate.
  - destruct rest as [|next rest].
    + simpl. destruct (render node indent) as [s|e]; simpl; [|discriminate].
      intros [= <-]. exists s. simpl. apply string_app_nil_r.
    + rewrite children_parts_cons.
      destruct (render node indent) as [s|e]; cbn [bind]; [|discriminate].
      destruct (children_parts render (next :: rest) indent) as [ps|e];
        cbn [bind]; [|discriminate].
      intros [= <-]. destruct (IH ps eq_refl) as [body Hbody].
      exists ((s ++ "," ++ newline) ++ body)%string.
      cbn [join fold_right]. fold (join ps).
      rewrite Hbody. symmetry. apply string_app_assoc.
Qed.

Lemma render_open_close node indent s :
  render node indent = Ok s ->
  exists body,
    s = (indent ++ class_name node ++ "(" ++ body ++ ")")%string.
Proof.
  assert (Composite : forall nodes,
            _print_node_with_children render node nodes indent = Ok s ->
            exists body,
              s = (indent ++ class_name node ++ "(" ++ body ++ ")")%string).
  { intros nodes. unfold _print_node_with_children.
    destruct (children_parts render nodes (indent ++ "    ")%string)
      as [parts|e] eqn:E; simpl; [|discriminate].
    intros [= <-]. apply children_parts_closed in E as [body Hbody].
    exists (newline ++ body)%string. fold (join parts). rewrite Hbody.
    rewrite !string_app_assoc. reflexivity. }
  destruct node; cbn [render]; try apply Composite;
    try (intros [= <-]; unfold _print_leaf_node; eauto).
  destruct (render node EmptyString) as [s'|e]; cbn [bind]; [|discriminate].
  intros [= <-]. unfold _print_leaf_node. eauto.
Qed.

(** X21. A printed node starts with the indentation followed by its class
    name and an opening parenthesis, and ends with a closing one. *)
Theorem render_shape :
  forall node indent s,
    render node indent = Ok s ->
    exists body,
      s = (indent ++ class_name node ++ "(" ++ body ++ ")")%string.
Proof.
  intros node indent s. apply render_open_close.
Qed.

Lemma render_shape_witness :
  exists body,
    ("  SubExpression(" ++ newline ++ "      Field(a))")%string
    = ("  " ++ class_name (SubExpression [Field "a"]) ++ "(" ++ body ++ ")")
        %string.
Proof.
  apply (render_shape (SubExpression [Field "a"]) "  ").
  reflexivity.
Defined.

Lemma string_app_inv_head (a b c : string) :
  (a ++ b)%string = (a ++ c)%string -> b = c.
Proof.
  induction a as [|ch a IH]; simpl; [auto|]. intros [= H]. auto.
Qed.

(** X22. Two nodes of different classes never print to the same string:
    equal printed forms, at the same indentation, imply equal classes. *)
Theorem render_distinguishes_classes :
  forall a b indent s,
    render a indent = Ok s -> render b indent = Ok s ->
    class_name a = class_name b.
Proof.
  intros a b indent s Ha Hb.
  apply render_open_close in Ha as [body1 H1].
  apply render_open_close in Hb as [body2 H2].
  rewrite H1 in H2. apply string_app_inv_head in H2.
  destruct a, b; simpl in H2; try reflexivity; discriminate H2.
Qed.

Lemma render_distinguishes_classes_witness :
  class_name (WildcardValues []) = class_name (WildcardValues [Field "a"]).
Proof.
  apply (render_distinguishes_classes
           (WildcardValues []) (WildcardValues [Field "a"]) ""
           "WildcardValues()"); reflexivity.
Defined.

(** * Indexing from either end *)

(** X23. [Index(0)] returns the first element of a non-empty list,
    [Index(-1)] its last, and [Index(i - n)] returns the same as
    [Index(i)] on a list of length [n] when [0 <= i < n]. *)
Theorem Index_from_either_end :
  (forall x rest, visit (Index 0) (PyList (x :: rest)) = Ok x)
  /\ (forall front x, visit (Index (-1)) (PyList (front ++ [x])) = Ok x)
  /\ (forall elements index,
        0 <= index < Z.of_nat (List.length elements) ->
        visit (Index (index - Z.of_nat (List.length elements)))
          (PyList elements)
        = visit (Index index) (PyList elements)).
Proof.
  split_and.
  - reflexivity.
  - intros front x. cbn [visit visit_Index]. unfold list_getitem.
    rewrite length_app. simpl List.length.
    replace (-1 <? 0) with true by reflexivity.
    destruct (Z.leb_spec 0 (Z.of_nat (List.length front + 1) + -1));
      [|lia].
    replace (Z.to_nat (Z.of_nat (List.length front + 1) + -1))
      with (List.length front + 0)%nat by lia.
    rewrite nth_error_app2 by lia.
    replace (List.length front + 0 - List.length front)%nat with 0%nat
      by lia.
    reflexivity.
  - intros elements index H. cbn [visit visit_Index]. unfold list_getitem.
    destruct (Z.ltb_spec (index - Z.of_nat (List.length elements)) 0);
      [|lia].
    destruct (Z.leb_spec 0
                (Z.of_nat (List.length elements)
                 + (index - Z.of_nat (List.length elements)))); [|lia].
    destruct (Z.ltb_spec index 0); [lia|].
    replace (Z.of_nat (List.length elements)
             + (index - Z.of_nat (List.length elements))) with index by lia.
    reflexivity.
Qed.

Lemma Index_from_either_end_witness :
  visit (Index (1 - Z.of_nat (List.length [PyInt 7; PyInt 8; PyInt 9])))
    (PyList [PyInt 7; PyInt 8; PyInt 9])
  = visit (Index 1) (PyList [PyInt 7; PyInt 8; PyInt 9]).
Proof.
  destruct Index_from_either_end as (_ & _ & H).
  apply H. simpl. lia.
Defined.

(** * Iterating a string *)

Lemma str_chars_lossless s :
  (fst (str_chars s)
   ++ fold_right
        (fun v acc => match v with PyStr c => c ++ acc | _ => acc end)
        "" (snd (str_chars s)))%string = s.
Proof.
  induction s as [|c s IH]; simpl; [reflexivity|].
  destruct (str_chars s) as [tail chars]. simpl in IH.
  destruct (is_continuation c); simpl; now rewrite IH.
Qed.

(** The characters a string iterates to concatenate back to the string,
    and a character encoded on several bytes stays in one piece. *)
Lemma str_iter_lossless :
  (forall s,
     fold_right
       (fun v acc => match v with PyStr c => c ++ acc | _ => acc end)%string
       "" (str_iter s) = s)
  /\ str_iter
       (String (ascii_of_nat 230)
          (String (ascii_of_nat 151) (String (ascii_of_nat 165) "ab")))
     = [PyStr
          (String (ascii_of_nat 230)
             (String (ascii_of_nat 151) (String (ascii_of_nat 165) "")));
        PyStr "a"; PyStr "b"].
Proof.
  split; [|reflexivity].
  intros s. pose proof (str_chars_lossless s) as H. unfold str_iter.
  destruct (str_chars s) as [tail chars]. simpl in H.
  destruct tail; simpl; exact H.
Qed.
